(** * Merry_Christmas: gesture-driven display state machine, hand-gesture
    classifier and ornament layout generator.

    The development embeds four source files of the application:
    - [types.ts]: the enumerations [AppState] and [GestureType];
    - [HandManager.tsx]: [detectGesture] and the per-frame callback
      [onResults], over IEEE-754 binary64 numbers (the JavaScript number
      type), which are the primitive floats;
    - the [App] component: its React state and its handlers
      [handleGestureDetected], [handlePhotoUpload], [handleRemovePhoto];
    - [Experience.tsx]: the layout generation of the [useMemo] block, over
      real numbers, and the memoisation that keeps its result.  *)

From Stdlib Require Import Bool List ZArith Lia String.
From Stdlib Require Import Floats.
From Stdlib Require Import Reals Lra.
From Stdlib Require Import DecimalString.
Import ListNotations.

(* The literal 0.05 of the source denotes the nearest binary64 number, here
   as in JavaScript. *)
Set Warnings "-inexact-float".

(** ** types.ts *)

Inductive AppState : Type :=
| TREE      (* Combined cone shape *)
| SCATTER   (* Floating randomly *)
| FOCUS.    (* Zooming into a photo *)

Inductive GestureType : Type :=
| NONE
| FIST      (* Trigger TREE *)
| OPEN      (* Trigger SCATTER *)
| PINCH.    (* Trigger FOCUS *)

Definition AppState_eqb (a b : AppState) : bool :=
  match a, b with
  | TREE, TREE | SCATTER, SCATTER | FOCUS, FOCUS => true
  | _, _ => false
  end.

Definition GestureType_eqb (a b : GestureType) : bool :=
  match a, b with
  | NONE, NONE | FIST, FIST | OPEN, OPEN | PINCH, PINCH => true
  | _, _ => false
  end.

(** ** JavaScript numbers used as array indices

    [focusedPhotoIndex] has type [number | null].  The only arithmetic the
    program performs on it is [(prevIndex + 1) % photos.length], on values
    that start at [0]; on integers of magnitude below 2^53 the binary64
    operations [+] and [%] are exact, so such a number is modelled by its
    integer value.  [%] by zero yields [NaN], which is kept as a value of
    its own: it is not [null], arithmetic propagates it, and it indexes no
    array element. *)

Inductive jsindex : Type :=
| Int (k : Z)
| NaN.

Definition jsindex_eqb (a b : jsindex) : bool :=
  match a, b with
  | Int i, Int j => Z.eqb i j
  | _, _ => false     (* NaN === NaN is false *)
  end.

(** [a + 1] *)
Definition js_succ (a : jsindex) : jsindex :=
  match a with
  | Int k => Int (k + 1)
  | NaN => NaN
  end.

(** [a % n] for an array length [n]: the remainder takes the sign of the
    dividend, and a zero divisor gives [NaN]. *)
Definition js_rem (a : jsindex) (n : nat) : jsindex :=
  match a with
  | Int k => if Nat.eqb n 0 then NaN else Int (Z.rem k (Z.of_nat n))
  | NaN => NaN
  end.

(** [arr[i]]: [undefined] (here [None]) unless [i] is an integer in range. *)
Definition js_get {A : Type} (arr : list A) (i : jsindex) : option A :=
  match i with
  | Int k => if (k <? 0)%Z then None else nth_error arr (Z.to_nat k)
  | NaN => None
  end.

(** [arr.filter((_, i) => i !== idx)] *)
Fixpoint filter_index_from {A : Type} (pos : Z) (idx : jsindex) (arr : list A)
  : list A :=
  match arr with
  | [] => []
  | a :: rest =>
      if negb (jsindex_eqb (Int pos) idx)
      then a :: filter_index_from (pos + 1) idx rest
      else filter_index_from (pos + 1) idx rest
  end.

Definition filter_index {A : Type} (idx : jsindex) (arr : list A) : list A :=
  filter_index_from 0 idx arr.

(** ** The [App] component *)

Module App.

(** An array held in React state.  [setPhotos] always stores a freshly
    built array, and [useMemo] compares dependencies by identity, so an
    array carries the identity of its allocation next to its elements. *)
Record PhotoArray : Type := mkPhotoArray {
  ident : nat;
  urls : list string
}.

(** The state cells of the [App] component:
    [useState] cells [appState], [currentGesture], [photos],
    [focusedPhotoIndex]; the ref [handPositionRef]; and the allocation
    counter that names the next array. *)
Record State : Type := mkState {
  appState : AppState;
  currentGesture : GestureType;
  photos : PhotoArray;
  focusedPhotoIndex : option jsindex;
  handPosition : float * float;
  nextIdent : nat
}.

Definition DEFAULT_PHOTOS : list string :=
  [ "https://picsum.photos/400/600";
    "https://picsum.photos/400/400";
    "https://picsum.photos/500/400";
    "https://picsum.photos/400/500" ]%string.

Definition initial : State :=
  {| appState := TREE;
     currentGesture := NONE;
     photos := mkPhotoArray 0 DEFAULT_PHOTOS;
     focusedPhotoIndex := None;
     handPosition := (0%float, 0%float);
     nextIdent := 1 |}.

Definition photoCount (s : State) : nat := List.length (urls (photos s)).

(** The updater passed to [setFocusedPhotoIndex] on PINCH. *)
Definition advanceFocus (n : nat) (prevIndex : option jsindex)
  : option jsindex :=
  match prevIndex with
  | None => Some (Int 0)
  | Some k => Some (js_rem (js_succ k) n)
  end.

(** The updater passed to [setAppState], together with the update of
    [focusedPhotoIndex] it requests on the way: the result is the next
    display state and the next focus index.  Each updater runs once per
    call, as in a production build of React; [n] is [photos.length], which
    the callback is re-created for whenever it changes. *)
Definition reducer (gesture : GestureType) (n : nat)
  (prev : AppState) (focus : option jsindex) : AppState * option jsindex :=
  (* Priority: FIST forces TREE *)
  if GestureType_eqb gesture FIST && negb (AppState_eqb prev TREE) then
    (TREE, focus)
  (* OPEN forces SCATTER *)
  else if GestureType_eqb gesture OPEN && negb (AppState_eqb prev SCATTER) then
    (SCATTER, None)
  (* PINCH triggers FOCUS if we are currently SCATTERED *)
  else if GestureType_eqb gesture PINCH && AppState_eqb prev SCATTER then
    (FOCUS, advanceFocus n focus)
  else
    (prev, focus).

Definition handleGestureDetected
  (gesture : GestureType) (handX handY : float) (s : State) : State :=
  let '(next, focus) :=
    reducer gesture (photoCount s) (appState s) (focusedPhotoIndex s) in
  {| appState := next;
     currentGesture := gesture;
     photos := photos s;
     focusedPhotoIndex := focus;
     handPosition := (handX, handY);
     nextIdent := nextIdent s |}.

(** [handlePhotoUpload]: [file] is the object URL created for
    [e.target.files[0]], or [None] when no file was chosen. *)
Definition handlePhotoUpload (file : option string) (s : State) : State :=
  match file with
  | Some url =>
      {| appState := appState s;
         currentGesture := currentGesture s;
         photos := mkPhotoArray (nextIdent s) (urls (photos s) ++ [url]);
         focusedPhotoIndex := focusedPhotoIndex s;
         handPosition := handPosition s;
         nextIdent := S (nextIdent s) |}
  | None => s
  end.

(** How a handler ends: normally, with the next state, or by a thrown
    [TypeError], in which case no state setter has run. *)
Inductive outcome : Type :=
| Returns (s : State)
| Throws.

Definition handleRemovePhoto (s : State) : outcome :=
  match focusedPhotoIndex s with
  | Some idx =>
      (* photos[focusedPhotoIndex].startsWith('blob:') *)
      match js_get (urls (photos s)) idx with
      | None => Throws
      | Some _ =>
          Returns
            {| appState := SCATTER;
               currentGesture := currentGesture s;
               photos := mkPhotoArray (nextIdent s)
                           (filter_index idx (urls (photos s)));
               focusedPhotoIndex := None;
               handPosition := handPosition s;
               nextIdent := S (nextIdent s) |}
      end
  | None => Returns s
  end.


(** The user-interface events that reach the handlers of [App]:
    a classified detection frame from [HandManager], a change of the file
    input, and a click on the remove button. *)
Inductive event : Type :=
| Gesture (gesture : GestureType) (handX handY : float)
| Upload (file : option string)
| RemoveClick.

(** [isFocusMode], the condition under which [InterfaceOverlay] renders
    the remove button. *)
Definition isFocusMode (s : State) : bool :=
  AppState_eqb (appState s) FOCUS
  && match focusedPhotoIndex s with Some _ => true | None => false end.

(** One event.  The remove button exists only in focus mode; a handler
    that throws has set no state. *)
Definition step (e : event) (s : State) : State :=
  match e with
  | Gesture g hx hy => handleGestureDetected g hx hy s
  | Upload file => handlePhotoUpload file s
  | RemoveClick =>
      if isFocusMode s then
        match handleRemovePhoto s with
        | Returns s' => s'
        | Throws => s
        end
      else s
  end.

Definition run (es : list event) (s : State) : State :=
  fold_left (fun acc e => step e acc) es s.

Definition reachable (s : State) : Prop :=
  exists es : list event, s = run es initial.

(** [i] designates an element of the photo collection. *)
Definition validIndex (s : State) (i : jsindex) : bool :=
  match js_get (urls (photos s)) i with Some _ => true | None => false end.

(** The index [k] as a JavaScript number. *)
Definition index (k : nat) : jsindex := Int (Z.of_nat k).

(** The cyclic advance in the words of the specification: null becomes 0,
    otherwise (previous + 1) mod n. *)
Definition cyclic_advance (n : nat) (previous : option nat) : nat :=
  match previous with
  | None => 0
  | Some p => (p + 1) mod n
  end.

(** The focus invariant in the words of the specification: FocusIndex is
    null or a valid index into the photo collection, and non-null only
    while the display state is FOCUS. *)
Definition focus_valid_or_null (s : State) : Prop :=
  match focusedPhotoIndex s with
  | None => True
  | Some i => validIndex s i = true
  end.

Definition focus_only_in_FOCUS (s : State) : Prop :=
  focusedPhotoIndex s <> None -> appState s = FOCUS.

(** The invariant the handlers maintain: the index is reset on the way
    into SCATTER, set to 0 on the way into FOCUS, and kept by FIST. *)
Definition focus_invariant (s : State) : Prop :=
  match appState s with
  | SCATTER => focusedPhotoIndex s = None
  | FOCUS => focusedPhotoIndex s = Some (Int 0)
  | TREE => focusedPhotoIndex s = None \/ focusedPhotoIndex s = Some (Int 0)
  end.

(** Event sequences used as concrete scenarios: focus the first photo and
    leave with a fist; remove the four default photos one by one. *)
Definition focus_then_fist : list event :=
  [ Gesture OPEN 0 0; Gesture PINCH 0 0; Gesture FIST 0 0 ].

Definition remove_all_defaults : list event :=
  [ Gesture OPEN 0 0;
    Gesture PINCH 0 0; RemoveClick;
    Gesture PINCH 0 0; RemoveClick;
    Gesture PINCH 0 0; RemoveClick;
    Gesture PINCH 0 0; RemoveClick ].

End App.

(** ** HandManager.tsx *)

Module HandManager.

(** A normalized hand landmark; the detector also supplies [z], which the
    program never reads. *)
Record Landmark : Type := mkLandmark {
  x : float;
  y : float
}.

(** Reading a property of [landmarks[i]] throws a [TypeError] when the
    index is out of range: a computation is an [option], [None] for the
    throw. *)
Definition bind {A B : Type} (m : option A) (k : A -> option B) : option B :=
  match m with
  | Some a => k a
  | None => None
  end.

Notation "v <- m ;; k" := (bind m (fun v => k))
  (at level 61, m at next level, right associativity).

Section Classifier.

(** [Math.hypot], which ECMAScript leaves implementation-approximated. *)
Variable hypot : float -> float -> float.

Definition isFingerOpen (landmarks : list Landmark) (tipIdx pipIdx : nat)
  : option bool :=
  tip <- nth_error landmarks tipIdx ;;
  pip <- nth_error landmarks pipIdx ;;
  Some (y tip <? y pip)%float.    (* Y increases downwards *)

Definition detectGesture (landmarks : list Landmark) : option GestureType :=
  indexOpen <- isFingerOpen landmarks 8 6 ;;
  middleOpen <- isFingerOpen landmarks 12 10 ;;
  ringOpen <- isFingerOpen landmarks 16 14 ;;
  pinkyOpen <- isFingerOpen landmarks 20 18 ;;
  (* Distance between Thumb Tip (4) and Index Tip (8) *)
  thumbTip <- nth_error landmarks 4 ;;
  indexTip <- nth_error landmarks 8 ;;
  let pinchDistance :=
    hypot (x thumbTip - x indexTip)%float (y thumbTip - y indexTip)%float in
  (* FIST: All fingers closed *)
  if negb indexOpen && negb middleOpen && negb ringOpen && negb pinkyOpen then
    Some FIST
  (* PINCH: Thumb and Index close together *)
  else if (pinchDistance <? 0.05)%float then
    Some PINCH
  (* OPEN: At least 3 fingers open *)
  else if (indexOpen && middleOpen && ringOpen)
          || (middleOpen && ringOpen && pinkyOpen) then
    Some OPEN
  else
    Some NONE.

(** The arguments of one call of [onGestureDetected]. *)
Record Report : Type := mkReport {
  gesture : GestureType;
  handX : float;
  handY : float
}.

(** [onResults]: [multiHandLandmarks] is absent ([None]) or the array of
    detected hands.  The result is the call of [onGestureDetected] the
    frame leads to, or [None] when a landmark access throws before it.
    ([lastGestureRef] is written after the call and read nowhere.) *)
Definition onResults (multiHandLandmarks : option (list (list Landmark)))
  : option Report :=
  match multiHandLandmarks with
  | Some (landmarks :: _) =>
      (* 1. Calculate Hand Position (Center of Palm approx) *)
      wrist <- nth_error landmarks 0 ;;
      middleMcp <- nth_error landmarks 9 ;;
      let palmX := ((x wrist + x middleMcp) / 2)%float in
      let palmY := ((y wrist + y middleMcp) / 2)%float in
      let normalizedX := ((0.5 - palmX) * 4)%float in
      let normalizedY := ((0.5 - palmY) * 2)%float in
      (* 2. Recognize Gestures *)
      gesture <- detectGesture landmarks ;;
      Some (mkReport gesture normalizedX normalizedY)
  | _ => Some (mkReport NONE 0 0)
  end.

End Classifier.

(** The classification as the specification words it, on the four finger
    flags and the pinch distance: priority order, first match wins. *)
Definition classify_spec (indexOpen middleOpen ringOpen pinkyOpen : bool)
  (pinchDistance : float) : GestureType :=
  match indexOpen, middleOpen, ringOpen, pinkyOpen with
  | false, false, false, false => FIST
  | _, _, _, _ =>
      if (pinchDistance <? 0.05)%float then PINCH
      else match indexOpen, middleOpen, ringOpen, pinkyOpen with
           | true, true, true, _ => OPEN
           | _, true, true, true => OPEN
           | _, _, _, _ => NONE
           end
  end.

Definition origin : Landmark := mkLandmark 0 0.

(** Landmark [i] of an array known to hold it. *)
Definition landmark (landmarks : list Landmark) (i : nat) : Landmark :=
  nth i landmarks origin.

(** A finger is open iff its tip lies strictly above its PIP joint. *)
Definition fingerOpen (landmarks : list Landmark) (tipIdx pipIdx : nat) : bool :=
  (y (landmark landmarks tipIdx) <? y (landmark landmarks pipIdx))%float.

(** The distance between thumb tip (4) and index tip (8). *)
Definition pinchDistanceOf (hypot : float -> float -> float)
  (landmarks : list Landmark) : float :=
  hypot (x (landmark landmarks 4) - x (landmark landmarks 8))%float
        (y (landmark landmarks 4) - y (landmark landmarks 8))%float.

(** [Math.hypot] computed the plain way, for concrete frames. *)
Definition hypot_sqrt (a b : float) : float :=
  PrimFloat.sqrt (a * a + b * b)%float.

(** Three frames: a flat open hand, the same hand with thumb tip and index
    tip together, and a fist.  Landmarks 0 wrist, 1-4 thumb, 5-8 index,
    9-12 middle, 13-16 ring, 17-20 pinky. *)
Definition openHand : list Landmark :=
  [ mkLandmark 0.5 0.9;
    mkLandmark 0.4 0.8; mkLandmark 0.33 0.72;
    mkLandmark 0.28 0.65; mkLandmark 0.25 0.58;
    mkLandmark 0.42 0.6; mkLandmark 0.41 0.48;
    mkLandmark 0.4 0.4; mkLandmark 0.4 0.33;
    mkLandmark 0.5 0.58; mkLandmark 0.5 0.45;
    mkLandmark 0.5 0.36; mkLandmark 0.5 0.28;
    mkLandmark 0.57 0.6; mkLandmark 0.58 0.48;
    mkLandmark 0.59 0.4; mkLandmark 0.6 0.33;
    mkLandmark 0.64 0.64; mkLandmark 0.66 0.55;
    mkLandmark 0.68 0.49; mkLandmark 0.7 0.43 ]%float.

Definition pinchHand : list Landmark :=
  [ mkLandmark 0.5 0.9;
    mkLandmark 0.44 0.78; mkLandmark 0.41 0.62;
    mkLandmark 0.4 0.47; mkLandmark 0.41 0.35;
    mkLandmark 0.42 0.6; mkLandmark 0.41 0.48;
    mkLandmark 0.4 0.4; mkLandmark 0.4 0.33;
    mkLandmark 0.5 0.58; mkLandmark 0.5 0.45;
    mkLandmark 0.5 0.36; mkLandmark 0.5 0.28;
    mkLandmark 0.57 0.6; mkLandmark 0.58 0.48;
    mkLandmark 0.59 0.4; mkLandmark 0.6 0.33;
    mkLandmark 0.64 0.64; mkLandmark 0.66 0.55;
    mkLandmark 0.68 0.49; mkLandmark 0.7 0.43 ]%float.

Definition fistHand : list Landmark :=
  [ mkLandmark 0.5 0.9;
    mkLandmark 0.4 0.8; mkLandmark 0.36 0.7;
    mkLandmark 0.4 0.64; mkLandmark 0.46 0.62;
    mkLandmark 0.42 0.6; mkLandmark 0.41 0.5;
    mkLandmark 0.42 0.56; mkLandmark 0.43 0.62;
    mkLandmark 0.5 0.58; mkLandmark 0.5 0.48;
    mkLandmark 0.5 0.56; mkLandmark 0.5 0.63;
    mkLandmark 0.57 0.6; mkLandmark 0.58 0.5;
    mkLandmark 0.58 0.57; mkLandmark 0.57 0.64;
    mkLandmark 0.64 0.64; mkLandmark 0.65 0.56;
    mkLandmark 0.64 0.61; mkLandmark 0.63 0.66 ]%float.

End HandManager.

(** [<HandManager onGestureDetected={handleGestureDetected} />]: one
    detection frame, from the detector's result to the state of [App].  A
    landmark access that throws happens before the callback is called. *)
Definition detectionFrame (hypot : float -> float -> float)
  (multiHandLandmarks : option (list (list HandManager.Landmark)))
  (s : App.State) : App.outcome :=
  match HandManager.onResults hypot multiHandLandmarks with
  | Some r =>
      App.Returns
        (App.handleGestureDetected (HandManager.gesture r)
           (HandManager.handX r) (HandManager.handY r) s)
  | None => App.Throws
  end.

(** ** Experience.tsx

    The layout geometry is modelled over the real numbers: [Math.cos],
    [Math.sin], [Math.acos], [Math.sqrt], [Math.pow] and [Math.cbrt] are the
    real functions they approximate, and the rounding of binary64 arithmetic
    is left out.  A bound on a position proved of this model holds of the
    program up to that rounding, which is why such bounds are stated with
    a tolerance. *)

Module Experience.

Local Open Scope R_scope.

(** [CONFIG] of the [constants] module: the four values used here, taken
    as parameters. *)
Record Config : Type := mkConfig {
  PARTICLE_COUNT : nat;
  TREE_HEIGHT : R;
  TREE_RADIUS_BOTTOM : R;
  SCATTER_RADIUS : R
}.

(** The keys of [COLORS] of the [constants] module that the loop uses. *)
Inductive Color : Type :=
| METALLIC_GOLD | CHRISTMAS_RED | BRIGHT_GREEN | MATTE_GREEN | WHITE.

(** The shape tags the loop assigns ([types.ts] declares the first three). *)
Inductive Shape : Type :=
| sphere | cube | candy | ring | diamond.

Definition Vec3 : Type := (R * R * R)%type.

Record ParticleData : Type := mkParticleData {
  id : nat;
  type : Shape;
  positionTree : Vec3;
  positionScatter : Vec3;
  color : Color;
  scale : R
}.

Record PhotoData : Type := mkPhotoData {
  photoId : string;
  url : string;
  photoPositionTree : Vec3;
  photoPositionScatter : Vec3;
  rotation : Vec3;
  aspectRatio : R
}.

(** [Math.random]: the generator is the sequence of its future draws and
    a cursor into it. *)
Record Rng : Type := mkRng {
  draws : nat -> R;
  cursor : nat
}.

Definition random (g : Rng) : R * Rng :=
  (draws g (cursor g), mkRng (draws g) (S (cursor g))).

(** [a > b] *)
Definition gtb (a b : R) : bool :=
  if Rlt_dec b a then true else false.

(** [Math.pow(x, y)] for a positive exponent: the real power on a positive
    base, [0] at [0].  (A negative base with a fractional exponent is [NaN]
    in the source; the value here is then arbitrary.) *)
Definition Math_pow (x y : R) : R :=
  if Rlt_dec 0 x then Rpower x y else 0.

(** [Math.cbrt(x)] *)
Definition Math_cbrt (x : R) : R :=
  if Rlt_dec 0 x then Rpower x (/ 3)
  else if Rlt_dec x 0 then - Rpower (- x) (/ 3)
  else 0.

Definition goldenAngle : R := PI * (3 - sqrt 5).

Section Generator.

Variable CONFIG : Config.

(** [maxRadiusAtY] as the loop computes it from [yTree]. *)
Definition maxRadiusAtY (yTree : R) : R :=
  let normalizedY := (yTree + TREE_HEIGHT CONFIG / 2) / TREE_HEIGHT CONFIG in
  TREE_RADIUS_BOTTOM CONFIG * Math_pow (1 - normalizedY) 0.9 + 0.2.

(** One iteration of the ornament loop, for index [i]. *)
Definition ornament (i : nat) (g : Rng) : ParticleData * Rng :=
  let count := INR (PARTICLE_COUNT CONFIG) in
  let t := INR i / count in
  let yTree := TREE_HEIGHT CONFIG * (t - 0.5) in
  let maxRadius := maxRadiusAtY yTree in
  let theta := INR i * goldenAngle in
  let '(u, g) := random g in
  let isSurface := gtb u 0.25 in
  let '(u, g) := random g in
  let rScale := if isSurface then 0.9 + u * 0.25 else u * 0.8 in
  let rCurrent := maxRadius * rScale in
  let xTree := cos theta * rCurrent in
  let zTree := sin theta * rCurrent in
  let '(u, g) := random g in
  let rScatter := SCATTER_RADIUS CONFIG * Math_cbrt u in
  let '(u, g) := random g in
  let thetaScatter := u * 2 * PI in
  let '(u, g) := random g in
  let phiScatter := acos (2 * u - 1) in
  let xScatter := rScatter * sin phiScatter * cos thetaScatter in
  let yScatter := rScatter * sin phiScatter * sin thetaScatter in
  let zScatter := rScatter * cos phiScatter in
  (* Shape Distribution Strategy *)
  let '(randShape, g) := random g in
  let '(type, g) :=
    if isSurface then
      (if gtb randShape 0.92 then diamond
       else if gtb randShape 0.84 then ring
       else if gtb randShape 0.6 then sphere
       else cube, g)
    else
      let '(u, g) := random g in
      (if gtb u 0.5 then sphere else candy, g) in
  (* Color Logic *)
  let '(randColor, g) := random g in
  let '(color, g) :=
    match type with
    | diamond | ring => (METALLIC_GOLD, g)
    | _ =>
        let color :=
          if gtb randColor 0.75 then METALLIC_GOLD
          else if gtb randColor 0.55 then CHRISTMAS_RED
          else if gtb randColor 0.25 then BRIGHT_GREEN
          else MATTE_GREEN in
        let '(u, g) := random g in
        (if gtb u 0.95 then WHITE else color, g)
    end in
  let '(u, g) := random g in
  (mkParticleData i type
     (xTree, yTree, zTree) (xScatter, yScatter, zScatter)
     color (u * 0.2 + 0.08),
   g).

(** [for (let i = 0; i < count; i++)], from index [i] with [remaining]
    iterations to go. *)
Fixpoint ornaments (remaining : nat) (i : nat) (g : Rng)
  : list ParticleData * Rng :=
  match remaining with
  | O => ([], g)
  | S remaining' =>
      let '(p, g) := ornament i g in
      let '(ps, g) := ornaments remaining' (S i) g in
      (p :: ps, g)
  end.

(** One call of the [photos.forEach] callback; [n] is [photos.length]. *)
Definition photoPosition (n : nat) (photoUrl : string) (i : nat) (g : Rng)
  : PhotoData * Rng :=
  let theta := INR i / INR n * PI * 8 in
  let yTree := (INR i / INR n - 0.5) * TREE_HEIGHT CONFIG * 0.7 in
  let normalizedY := (yTree + TREE_HEIGHT CONFIG / 2) / TREE_HEIGHT CONFIG in
  let radiusAtY := (TREE_RADIUS_BOTTOM CONFIG + 1.2) * (1 - normalizedY) + 0.5 in
  let xTree := cos theta * radiusAtY in
  let zTree := sin theta * radiusAtY in
  let '(u, g) := random g in
  let xScatter := (u - 0.5) * 16 in
  let '(u, g) := random g in
  let yScatter := (u - 0.5) * 12 in
  let '(u, g) := random g in
  let zScatter := (u - 0.5) * 8 in
  let '(u, g) := random g in
  (mkPhotoData
     ("photo-" ++ NilZero.string_of_uint (Nat.to_uint i))%string photoUrl
     (xTree, yTree, zTree) (xScatter, yScatter, zScatter)
     (0, u * 0.5, 0) 1,
   g).

Fixpoint photoPositionsFrom (n : nat) (photos : list string) (i : nat)
  (g : Rng) : list PhotoData * Rng :=
  match photos with
  | [] => ([], g)
  | photoUrl :: rest =>
      let '(p, g) := photoPosition n photoUrl i g in
      let '(ps, g) := photoPositionsFrom n rest (S i) g in
      (p :: ps, g)
  end.

Record Layout : Type := mkLayout {
  particles : list ParticleData;
  photoPositions : list PhotoData
}.

(** The function memoised by [useMemo(..., [photos])]. *)
Definition generate (photos : list string) (g : Rng) : Layout * Rng :=
  let '(tempParticles, g) := ornaments (PARTICLE_COUNT CONFIG) 0 g in
  let '(tempPhotoPositions, g) :=
    photoPositionsFrom (List.length photos) photos 0 g in
  (mkLayout tempParticles tempPhotoPositions, g).

(** The memo cell of [useMemo]: the dependency of the last computation
    (the identity of the [photos] array) and its value. *)
Record Memo : Type := mkMemo {
  deps : nat;
  value : Layout
}.

(** The application together with the mounted [Experience] component. *)
Record World : Type := mkWorld {
  app : App.State;
  memo : option Memo;
  rng : Rng
}.

(** A render of [Experience]: [useMemo] keeps its value while the [photos]
    prop is the same array, and recomputes otherwise. *)
Definition render (w : World) : World :=
  let photos := App.photos (app w) in
  let recompute :=
    let '(layout, g) := generate (App.urls photos) (rng w) in
    mkWorld (app w) (Some (mkMemo (App.ident photos) layout)) g in
  match memo w with
  | Some m => if Nat.eqb (deps m) (App.ident photos) then w else recompute
  | None => recompute
  end.

(** An event is handled by [App], whose state change re-renders. *)
Definition dispatch (e : App.event) (w : World) : World :=
  render (mkWorld (App.step e (app w)) (memo w) (rng w)).

End Generator.

(** Distance from the origin, and from the vertical axis. *)
Definition norm (p : Vec3) : R :=
  let '(px, py, pz) := p in sqrt (px * px + py * py + pz * pz).

Definition horizontalRadius (p : Vec3) : R :=
  let '(px, _, pz) := p in sqrt (px * px + pz * pz).

Definition height (p : Vec3) : R :=
  let '(_, py, _) := p in py.

(** Every draw of [Math.random] lies in [0, 1). *)
Definition unitDraws (g : Rng) : Prop :=
  forall k : nat, 0 <= draws g k < 1.

(** The configurations the layout is meant for: at least one ornament, a
    tree of positive height, radii that are not negative. *)
Definition wellFormed (cfg : Config) : Prop :=
  (1 <= PARTICLE_COUNT cfg)%nat
  /\ 0 < TREE_HEIGHT cfg
  /\ 0 <= TREE_RADIUS_BOTTOM cfg
  /\ 0 <= SCATTER_RADIUS cfg.

(** The radius scale of an ornament, from its first two draws. *)
Definition rScaleOf (u1 u2 : R) : R :=
  if gtb u1 0.25 then 0.9 + u2 * 0.25 else u2 * 0.8.

(** A concrete run: one ornament, whose first draw puts it on the surface
    and whose second draw gives the radius scale 0.9 + 0.96 * 0.25. *)
Definition oneOrnament : Config := mkConfig 1 12 5 15.

Definition surfaceDraws : Rng :=
  mkRng (fun k => match k with
                  | O => 0.5
                  | S O => 0.96
                  | _ => 0
                  end) 0.

(** *** The earlier revision of the ornament loop

    The second copy of the component in the sources differs in the loop
    body: other thresholds, three shapes only, and white chosen for any
    shape. *)


(** *** Animation targets

    The positions and scales that the [useFrame] callbacks damp towards;
    the damping itself is [maath]'s. *)

(** [isFocused={focusedPhotoIndex === i}] *)
Definition isFocused (focusedPhotoIndex : option jsindex) (i : nat) : bool :=
  match focusedPhotoIndex with
  | Some k => jsindex_eqb k (App.index i)
  | None => false
  end.

(** [PhotoMesh]: [targetPos] and [targetScale]. *)
Definition photoTarget (appState : AppState) (isFocused : bool)
  (data : PhotoData) : Vec3 * R :=
  let targetPos :=
    match appState with
    | TREE => photoPositionTree data
    | _ => photoPositionScatter data
    end in
  let targetScale := 1 in
  match appState with
  | FOCUS =>
      if isFocused then ((0, 0, 5), 3.5)
      else
        let '(sx, sy, sz) := photoPositionScatter data in
        ((sx * 1.5, sy * 1.5, sz - 10), targetScale)
  | _ => (targetPos, targetScale)
  end.

(** [Star]: the target position. *)
Definition starTarget (cfg : Config) (appState : AppState) : Vec3 :=
  let targetY :=
    match appState with
    | TREE => TREE_HEIGHT cfg / 2 + 1
    | _ => 10
    end in
  (0, targetY, 0).

(** [Experience]: the position the camera is damped towards; in SCATTER
    only its rotation is driven. *)
Definition cameraPositionTarget (appState : AppState) : option Vec3 :=
  match appState with
  | SCATTER => None
  | TREE => Some (0, 0, 18)
  | FOCUS => Some (0, 0, 8)
  end.

(** *** The running application *)

(** The first render, and the handling of a sequence of events. *)
Definition mounted (cfg : Config) (g : Rng) : World :=
  render cfg (mkWorld App.initial None g).

Definition runWorld (cfg : Config) (es : list App.event) (w : World) : World :=
  fold_left (fun acc e => dispatch cfg e acc) es w.

Definition reachableWorld (cfg : Config) (w : World) : Prop :=
  exists (g : Rng) (es : list App.event),
    unitDraws g /\ w = runWorld cfg es (mounted cfg g).

(** What every render re-establishes: the memo cell holds the layout
    generated for the current [photos] array, whose identity is older than
    the next one to be allocated. *)
Definition worldInvariant (cfg : Config) (w : World) : Prop :=
  App.reachable (app w)
  /\ unitDraws (rng w)
  /\ (App.ident (App.photos (app w)) < App.nextIdent (app w))%nat
  /\ exists (m : Memo) (g0 : Rng),
       memo w = Some m
       /\ deps m = App.ident (App.photos (app w))
       /\ unitDraws g0
       /\ value m = fst (generate cfg (App.urls (App.photos (app w))) g0).

(** The x, y and z coordinates of a point. *)
Definition xOf (p : Vec3) : R := let '(px, _, _) := p in px.
Definition zOf (p : Vec3) : R := let '(_, _, pz) := p in pz.

End Experience.

(** * Properties *)

(** ** The display state machine *)

Lemma AppState_eqb_spec (a b : AppState) : reflect (a = b) (AppState_eqb a b).
Proof. destruct a, b; simpl; constructor; congruence. Qed.

Lemma GestureType_eqb_spec (a b : GestureType) :
  reflect (a = b) (GestureType_eqb a b).
Proof. destruct a, b; simpl; constructor; congruence. Qed.

(** The handler in terms of the reducer, field by field. *)
Lemma handleGestureDetected_fields (g : GestureType) (hx hy : float)
  (s : App.State) :
  let s' := App.handleGestureDetected g hx hy s in
  let r := App.reducer g (App.photoCount s) (App.appState s)
             (App.focusedPhotoIndex s) in
  App.appState s' = fst r
  /\ App.focusedPhotoIndex s' = snd r
  /\ App.currentGesture s' = g
  /\ App.handPosition s' = (hx, hy)
  /\ App.photos s' = App.photos s
  /\ App.nextIdent s' = App.nextIdent s.
Proof.
  unfold App.handleGestureDetected.
  destruct (App.reducer _ _ _ _) as [next focus]; simpl.
  repeat split; reflexivity.
Qed.

(** C1: for every display state, focus index and photo count, the reducer
    applied to FIST yields TREE. *)
Theorem fist_yields_tree :
  forall (s : App.State) (hx hy : float),
    App.appState (App.handleGestureDetected FIST hx hy s) = TREE
    /\ forall n prev focus, fst (App.reducer FIST n prev focus) = TREE.
Proof.
  assert (H : forall n prev focus, fst (App.reducer FIST n prev focus) = TREE).
  { intros n prev focus. destruct prev; reflexivity. }
  intros s hx hy. split; [| exact H].
  destruct (handleGestureDetected_fields FIST hx hy s) as [-> _].
  apply H.
Qed.

(** C4: OPEN outside SCATTER moves to SCATTER and clears the focus index;
    OPEN in SCATTER changes neither the display state nor the focus
    index. *)
Theorem open_scatters_and_clears_focus :
  forall (s : App.State) (hx hy : float),
    let s' := App.handleGestureDetected OPEN hx hy s in
    App.appState s' = SCATTER
    /\ App.focusedPhotoIndex s' =
         match App.appState s with
         | SCATTER => App.focusedPhotoIndex s
         | _ => None
         end
    /\ App.photos s' = App.photos s.
Proof.
  intros s hx hy s'.
  destruct (handleGestureDetected_fields OPEN hx hy s)
    as (Hst & Hfo & _ & _ & Hph & _).
  fold s' in Hst, Hfo, Hph. rewrite Hst, Hfo, Hph.
  destruct (App.appState s); simpl; auto.
Qed.

Lemma rem_index (p n : nat) :
  n <> 0 ->
  Z.rem (Z.of_nat p + 1) (Z.of_nat n) = Z.of_nat ((p + 1) mod n).
Proof.
  intros Hn.
  rewrite Z.rem_mod_nonneg by lia.
  rewrite Nat2Z.inj_mod, Nat2Z.inj_add. reflexivity.
Qed.

Lemma advanceFocus_cyclic (n : nat) (previous : option nat) :
  n <> 0 ->
  App.advanceFocus n (option_map App.index previous)
  = Some (App.index (App.cyclic_advance n previous)).
Proof.
  intros Hn. destruct previous as [p|]; simpl; [| reflexivity].
  unfold App.index.
  destruct (Nat.eqb_spec n 0) as [E|_]; [contradiction|].
  rewrite rem_index by assumption. reflexivity.
Qed.

(** C5: with at least one photo, PINCH in SCATTER moves to FOCUS and
    advances the focus index cyclically (null becomes 0, otherwise
    (previous + 1) mod n); PINCH in TREE or FOCUS changes neither the
    display state nor the focus index, so a second PINCH in a row advances
    nothing. *)
Theorem pinch_focuses_cyclically :
  forall (st : AppState) (g : GestureType) (ph : App.PhotoArray)
         (previous : option nat) (hp : float * float) (ni : nat)
         (hx hy hx2 hy2 : float),
    1 <= List.length (App.urls ph) ->
    let n := List.length (App.urls ph) in
    let focus := option_map App.index previous in
    let s := App.mkState st g ph focus hp ni in
    let s' := App.handleGestureDetected PINCH hx hy s in
    s' = App.mkState
           (match st with SCATTER => FOCUS | _ => st end)
           PINCH ph
           (match st with
            | SCATTER => Some (App.index (App.cyclic_advance n previous))
            | _ => focus
            end)
           (hx, hy) ni
    /\ App.appState (App.handleGestureDetected PINCH hx2 hy2 s')
       = App.appState s'
    /\ App.focusedPhotoIndex (App.handleGestureDetected PINCH hx2 hy2 s')
       = App.focusedPhotoIndex s'.
Proof.
  intros st g ph previous hp ni hx hy hx2 hy2 Hn n focus s s'.
  assert (Hs' : s' = App.mkState
           (match st with SCATTER => FOCUS | _ => st end)
           PINCH ph
           (match st with
            | SCATTER => Some (App.index (App.cyclic_advance n previous))
            | _ => focus
            end)
           (hx, hy) ni).
  { unfold s', s, App.handleGestureDetected, App.reducer, App.photoCount.
    destruct st; simpl; try reflexivity.
    fold n. unfold focus. rewrite advanceFocus_cyclic by (unfold n; lia).
    reflexivity. }
  split; [exact Hs'|].
  rewrite Hs'. destruct st; simpl; split; reflexivity.
Qed.

Lemma pinch_focuses_cyclically_witness :
  1 <= List.length (App.urls (App.mkPhotoArray 0 App.DEFAULT_PHOTOS))
  /\ App.handleGestureDetected PINCH 1 0.5
       (App.mkState SCATTER OPEN (App.mkPhotoArray 0 App.DEFAULT_PHOTOS)
          (Some (App.index 3)) (0%float, 0%float) 1)
     = App.mkState FOCUS PINCH (App.mkPhotoArray 0 App.DEFAULT_PHOTOS)
         (Some (App.index 0)) (1%float, 0.5%float) 1.
Proof.
  assert (H : 1 <= List.length
                     (App.urls (App.mkPhotoArray 0 App.DEFAULT_PHOTOS)))
    by (simpl; lia).
  split; [exact H|].
  exact (proj1 (pinch_focuses_cyclically SCATTER OPEN
                  (App.mkPhotoArray 0 App.DEFAULT_PHOTOS) (Some 3)
                  (0%float, 0%float) 1 1 0.5 0 0 H)).
Defined.

(** C3: the failing input.  After the four default photos have been
    removed the collection is empty and the display state is SCATTER; a
    PINCH there is not rejected: it enters FOCUS with focus index 0, which
    designates no photo, the remove button is shown, and its handler
    throws.  From a non-null index the advance computes a remainder by
    zero. *)
Theorem pinch_on_empty_collection :
  let s := App.run App.remove_all_defaults App.initial in
  let s' := App.handleGestureDetected PINCH 0 0 s in
  App.photoCount s = 0
  /\ App.appState s = SCATTER
  /\ App.focusedPhotoIndex s = None
  /\ App.appState s' = FOCUS
  /\ App.focusedPhotoIndex s' = Some (Int 0)
  /\ App.validIndex s' (Int 0) = false
  /\ App.isFocusMode s' = true
  /\ App.handleRemovePhoto s' = App.Throws
  /\ forall k : Z, App.advanceFocus 0 (Some (Int k)) = Some NaN.
Proof.
  vm_compute. repeat split; reflexivity.
Qed.

(** Past the index, the filter keeps everything. *)
Lemma filter_index_from_past {A : Type} (arr : list A) :
  forall (pos idx : Z),
    (idx < pos)%Z -> filter_index_from pos (Int idx) arr = arr.
Proof.
  induction arr as [|a rest IH]; intros pos idx Hlt; simpl; [reflexivity|].
  destruct (Z.eqb_spec pos idx) as [E|_]; [lia|]. simpl.
  rewrite IH by lia. reflexivity.
Qed.

(** Removing by index keeps what precedes and what follows the index. *)
Lemma filter_index_from_spec {A : Type} (arr : list A) :
  forall (pos : Z) (k : nat),
    k < List.length arr ->
    filter_index_from pos (Int (pos + Z.of_nat k)) arr
    = firstn k arr ++ skipn (S k) arr.
Proof.
  induction arr as [|a rest IH]; intros pos k Hk; simpl in Hk; [lia|].
  destruct k as [|k]; cbn [filter_index_from jsindex_eqb].
  - rewrite Z.add_0_r, Z.eqb_refl. simpl.
    apply filter_index_from_past. lia.
  - destruct (Z.eqb_spec pos (pos + Z.of_nat (S k))) as [E|_]; [lia|].
    cbn [negb firstn skipn app]. f_equal.
    replace (pos + Z.of_nat (S k))%Z with (pos + 1 + Z.of_nat k)%Z by lia.
    apply IH. lia.
Qed.

Lemma filter_index_spec {A : Type} (arr : list A) (k : nat) :
  k < List.length arr ->
  filter_index (App.index k) arr = firstn k arr ++ skipn (S k) arr.
Proof.
  intros Hk. unfold filter_index, App.index.
  exact (filter_index_from_spec arr 0 k Hk).
Qed.

Lemma js_get_index {A : Type} (arr : list A) (k : nat) :
  js_get arr (App.index k) = nth_error arr k.
Proof.
  unfold js_get, App.index.
  destruct (Z.ltb_spec (Z.of_nat k) 0) as [H|_]; [lia|].
  rewrite Nat2Z.id. reflexivity.
Qed.

(** X20: when the focus index designates a photo, removal deletes exactly
    that photo, nulls the focus index and moves to SCATTER; when the focus
    index is null, removal returns normally and changes nothing. *)
Theorem remove_focused_photo :
  forall (st : AppState) (g : GestureType) (ph : App.PhotoArray)
         (hp : float * float) (ni : nat) (k : nat),
    k < List.length (App.urls ph) ->
    App.handleRemovePhoto (App.mkState st g ph (Some (App.index k)) hp ni)
    = App.Returns
        (App.mkState SCATTER g
           (App.mkPhotoArray ni
              (firstn k (App.urls ph) ++ skipn (S k) (App.urls ph)))
           None hp (S ni))
    /\ App.handleRemovePhoto (App.mkState st g ph None hp ni)
       = App.Returns (App.mkState st g ph None hp ni).
Proof.
  intros st g ph hp ni k Hk. split; [| reflexivity].
  unfold App.handleRemovePhoto.
  cbn [App.focusedPhotoIndex App.photos App.currentGesture
       App.handPosition App.nextIdent].
  rewrite js_get_index.
  destruct (nth_error (App.urls ph) k) as [u|] eqn:E.
  - rewrite filter_index_spec by exact Hk. reflexivity.
  - apply nth_error_None in E. lia.
Qed.

Lemma remove_focused_photo_witness :
  1 < List.length (App.urls (App.mkPhotoArray 0 App.DEFAULT_PHOTOS))
  /\ App.handleRemovePhoto
       (App.mkState FOCUS PINCH (App.mkPhotoArray 0 App.DEFAULT_PHOTOS)
          (Some (App.index 1)) (0%float, 0%float) 1)
     = App.Returns
         (App.mkState SCATTER PINCH
            (App.mkPhotoArray 1
               [ "https://picsum.photos/400/600";
                 "https://picsum.photos/500/400";
                 "https://picsum.photos/400/500" ]%string)
            None (0%float, 0%float) 2).
Proof.
  assert (H : 1 < List.length
                    (App.urls (App.mkPhotoArray 0 App.DEFAULT_PHOTOS)))
    by (simpl; lia).
  split; [exact H|].
  exact (proj1 (remove_focused_photo FOCUS PINCH
                  (App.mkPhotoArray 0 App.DEFAULT_PHOTOS)
                  (0%float, 0%float) 1 1 H)).
Defined.

(** *** Reachable states *)

Lemma run_snoc (es : list App.event) (e : App.event) (s : App.State) :
  App.run (es ++ [e]) s = App.step e (App.run es s).
Proof. unfold App.run. rewrite fold_left_app. reflexivity. Qed.

Lemma reachable_initial : App.reachable App.initial.
Proof. exists []. reflexivity. Qed.

Lemma reachable_step (e : App.event) (s : App.State) :
  App.reachable s -> App.reachable (App.step e s).
Proof.
  intros [es ->]. exists (es ++ [e]). rewrite run_snoc. reflexivity.
Qed.

Lemma reachable_run (es : list App.event) : App.reachable (App.run es App.initial).
Proof. exists es. reflexivity. Qed.

(** Reachability is the closure of the initial state under [step]. *)
Lemma reachable_ind (P : App.State -> Prop) :
  P App.initial ->
  (forall e s, App.reachable s -> P s -> P (App.step e s)) ->
  forall s, App.reachable s -> P s.
Proof.
  intros Hinit Hstep s [es ->].
  induction es as [|e es IH] using rev_ind.
  - exact Hinit.
  - rewrite run_snoc. apply Hstep; [apply reachable_run | exact IH].
Qed.

Lemma step_preserves_focus_invariant (e : App.event) (s : App.State) :
  App.focus_invariant s -> App.focus_invariant (App.step e s).
Proof.
  unfold App.focus_invariant.
  destruct s as [st g ph fo hp ni]. simpl. intros Hinv.
  destruct e as [ge hx hy | file |]; simpl.
  - unfold App.handleGestureDetected, App.reducer; simpl.
    destruct ge, st; simpl in *; subst; auto.
  - destruct file; simpl; exact Hinv.
  - unfold App.isFocusMode, App.handleRemovePhoto; simpl.
    destruct st; simpl; try exact Hinv.
    subst fo. simpl.
    destruct (App.urls ph); simpl; reflexivity.
Qed.

Lemma reachable_focus_invariant (s : App.State) :
  App.reachable s -> App.focus_invariant s.
Proof.
  revert s. apply reachable_ind.
  - left. reflexivity.
  - intros e s _. apply step_preserves_focus_invariant.
Qed.

(** C8: the failing input.  After the four default photos have been
    removed and a PINCH has entered FOCUS, the focus index is 0, non-null,
    while the collection is empty: the remove button is rendered, and the
    remove handler does not delete, null the index or move to SCATTER but
    throws on [photos[0].startsWith], so that the click leaves the state in
    FOCUS with its index. *)
Theorem remove_on_empty_collection_throws :
  let s := App.run (App.remove_all_defaults ++ [App.Gesture PINCH 0 0])
             App.initial in
  App.reachable s
  /\ App.appState s = FOCUS
  /\ App.focusedPhotoIndex s = Some (Int 0)
  /\ App.urls (App.photos s) = []
  /\ App.isFocusMode s = true
  /\ App.handleRemovePhoto s = App.Throws
  /\ App.step App.RemoveClick s = s.
Proof.
  split; [apply reachable_run|].
  vm_compute. repeat split; reflexivity.
Qed.

(** C2, as claimed, fails: after OPEN, PINCH, FIST from the initial state
    the display state is TREE and the focus index is still 0, so the index
    is non-null outside FOCUS and the FIST transition out of FOCUS did not
    clear it. *)
Lemma fist_leaves_focus_index :
  let s := App.run App.focus_then_fist App.initial in
  App.reachable s
  /\ App.appState s = TREE
  /\ App.focusedPhotoIndex s = Some (Int 0)
  /\ ~ App.focus_only_in_FOCUS s.
Proof.
  split; [apply reachable_run|].
  split; [reflexivity|]. split; [reflexivity|].
  intros H. unfold App.focus_only_in_FOCUS in H.
  assert (E : App.appState (App.run App.focus_then_fist App.initial) = FOCUS)
    by (apply H; discriminate).
  discriminate E.
Qed.

(** C2, amended: in every reachable state the focus index is null or 0,
    null in SCATTER and 0 in FOCUS, and it designates a photo unless it is
    null or the collection is empty.  Leaving FOCUS by OPEN, or by removing
    the focused photo, clears the index; leaving FOCUS by FIST keeps it. *)
Theorem focus_index_invariant :
  forall s : App.State,
    App.reachable s ->
    App.focus_invariant s
    /\ (App.focus_valid_or_null s \/ App.photoCount s = 0)
    /\ (App.appState s = FOCUS ->
        forall hx hy : float,
          let opened := App.step (App.Gesture OPEN hx hy) s in
          let closed := App.step (App.Gesture FIST hx hy) s in
          App.appState opened = SCATTER
          /\ App.focusedPhotoIndex opened = None
          /\ App.appState closed = TREE
          /\ App.focusedPhotoIndex closed = App.focusedPhotoIndex s)
    /\ (App.appState s = FOCUS ->
        App.photoCount s <> 0 ->
        let removed := App.step App.RemoveClick s in
        App.appState removed = SCATTER
        /\ App.focusedPhotoIndex removed = None).
Proof.
  intros s Hreach.
  pose proof (reachable_focus_invariant s Hreach) as Hinv.
  split; [exact Hinv|].
  unfold App.focus_invariant in Hinv.
  destruct s as [st g ph fo hp ni]; simpl in *.
  split; [| split].
  - unfold App.focus_valid_or_null, App.validIndex, App.photoCount; simpl.
    assert (Hfo : fo = None \/ fo = Some (Int 0))
      by (destruct st; auto).
    destruct Hfo as [-> | ->]; [left; exact I|].
    simpl. destruct (App.urls ph); simpl; auto.
  - intros ->. subst fo. intros hx hy. simpl. auto.
  - intros ->. subst fo. unfold App.photoCount; simpl. intros Hne.
    unfold App.isFocusMode, App.handleRemovePhoto; simpl.
    destruct (App.urls ph); simpl; [contradiction|]. auto.
Qed.

Lemma focus_index_invariant_witness :
  let s := App.run [App.Gesture OPEN 0 0; App.Gesture PINCH 0 0] App.initial in
  App.reachable s
  /\ App.appState s = FOCUS
  /\ App.focusedPhotoIndex s = Some (Int 0)
  /\ App.focusedPhotoIndex (App.step (App.Gesture OPEN 1 1) s) = None
  /\ App.focusedPhotoIndex (App.step (App.Gesture FIST 1 1) s) = Some (Int 0)
  /\ App.focusedPhotoIndex (App.step App.RemoveClick s) = None.
Proof.
  intros s.
  assert (Hreach : App.reachable s)
    by (exists [App.Gesture OPEN 0 0; App.Gesture PINCH 0 0]; reflexivity).
  assert (Hfocus : App.appState s = FOCUS) by reflexivity.
  assert (Hcount : App.photoCount s <> 0) by (vm_compute; discriminate).
  destruct (focus_index_invariant s Hreach) as (Hinv & _ & Hleave & Hrem).
  split; [exact Hreach|]. split; [exact Hfocus|].
  split; [exact Hinv|].
  destruct (Hleave Hfocus 1%float 1%float) as (_ & Hopen & _ & Hfist).
  destruct (Hrem Hfocus Hcount) as (_ & Hremoved).
  split; [exact Hopen|]. split; [exact Hfist|]. exact Hremoved.
Defined.

(** ** Gestures and the memoised layout *)

(** After a render the memo cell is keyed by the current [photos] array. *)
Lemma render_keyed (cfg : Experience.Config) (w : Experience.World) :
  exists m : Experience.Memo,
    Experience.memo (Experience.render cfg w) = Some m
    /\ Experience.deps m
       = App.ident (App.photos (Experience.app (Experience.render cfg w))).
Proof.
  unfold Experience.render.
  destruct (Experience.generate cfg _ _) as [layout g] eqn:Egen.
  destruct (Experience.memo w) as [m|] eqn:Em.
  - destruct (Nat.eqb_spec (Experience.deps m)
                (App.ident (App.photos (Experience.app w)))) as [E|NE].
    + exists m. split; [exact Em | exact E].
    + eexists. split; reflexivity.
  - eexists. split; reflexivity.
Qed.

(** A render with an unchanged [photos] array keeps the memo cell and
    draws no random number. *)
Lemma render_same_photos (cfg : Experience.Config) (a : App.State)
  (m : Experience.Memo) (g : Experience.Rng) :
  Experience.deps m = App.ident (App.photos a) ->
  Experience.render cfg (Experience.mkWorld a (Some m) g)
  = Experience.mkWorld a (Some m) g.
Proof.
  intros E. unfold Experience.render. simpl.
  rewrite E, Nat.eqb_refl. reflexivity.
Qed.

(** C10: handling a gesture sample changes neither the photo collection
    nor the memoised layout (the tree and scatter positions of every
    ornament and photo); of the application state it sets the display
    state, the focus index, the current gesture and the hand position. *)
Theorem gesture_preserves_photos_and_layout :
  forall (cfg : Experience.Config) (w0 : Experience.World)
         (g : GestureType) (hx hy : float),
    let w := Experience.render cfg w0 in
    let w' := Experience.dispatch cfg (App.Gesture g hx hy) w in
    let a := Experience.app w in
    App.photos (Experience.app w') = App.photos a
    /\ Experience.memo w' = Experience.memo w
    /\ Experience.rng w' = Experience.rng w
    /\ Experience.app w'
       = App.mkState
           (fst (App.reducer g (App.photoCount a) (App.appState a)
                   (App.focusedPhotoIndex a)))
           g (App.photos a)
           (snd (App.reducer g (App.photoCount a) (App.appState a)
                   (App.focusedPhotoIndex a)))
           (hx, hy) (App.nextIdent a).
Proof.
  intros cfg w0 g hx hy w w' a.
  destruct (render_keyed cfg w0) as (m & Hm & Hdeps).
  fold w in Hm, Hdeps. fold a in Hdeps.
  assert (Happ : App.handleGestureDetected g hx hy a
                 = App.mkState
                     (fst (App.reducer g (App.photoCount a) (App.appState a)
                             (App.focusedPhotoIndex a)))
                     g (App.photos a)
                     (snd (App.reducer g (App.photoCount a) (App.appState a)
                             (App.focusedPhotoIndex a)))
                     (hx, hy) (App.nextIdent a)).
  { unfold App.handleGestureDetected.
    destruct (App.reducer _ _ _ _); reflexivity. }
  assert (Hw' : w' = Experience.mkWorld (App.handleGestureDetected g hx hy a)
                       (Some m) (Experience.rng w)).
  { unfold w', Experience.dispatch. simpl App.step. fold a. rewrite Hm.
    apply render_same_photos. rewrite Happ. exact Hdeps. }
  rewrite Hw', Hm, Happ. simpl. repeat split; reflexivity.
Qed.

(** ** The gesture classifier *)

Section ClassifierFacts.

Variable hypot : float -> float -> float.

Lemma nth_error_landmark (landmarks : list HandManager.Landmark) (i : nat) :
  i < List.length landmarks ->
  nth_error landmarks i = Some (HandManager.landmark landmarks i).
Proof.
  intros Hi. unfold HandManager.landmark.
  apply nth_error_nth'. exact Hi.
Qed.

Lemma isFingerOpen_total (landmarks : list HandManager.Landmark)
  (tipIdx pipIdx : nat) :
  tipIdx < List.length landmarks ->
  pipIdx < List.length landmarks ->
  HandManager.isFingerOpen landmarks tipIdx pipIdx
  = Some (HandManager.fingerOpen landmarks tipIdx pipIdx).
Proof.
  intros Ht Hp. unfold HandManager.isFingerOpen.
  rewrite (nth_error_landmark landmarks tipIdx Ht).
  rewrite (nth_error_landmark landmarks pipIdx Hp).
  reflexivity.
Qed.

(** On a frame that holds landmarks 0 to 20 the classifier returns, and
    its label is the one of the priority list. *)
Lemma detectGesture_classify (landmarks : list HandManager.Landmark) :
  20 < List.length landmarks ->
  HandManager.detectGesture hypot landmarks
  = Some (HandManager.classify_spec
            (HandManager.fingerOpen landmarks 8 6)
            (HandManager.fingerOpen landmarks 12 10)
            (HandManager.fingerOpen landmarks 16 14)
            (HandManager.fingerOpen landmarks 20 18)
            (HandManager.pinchDistanceOf hypot landmarks)).
Proof.
  intros Hlen. unfold HandManager.detectGesture.
  rewrite !isFingerOpen_total by lia.
  rewrite (nth_error_landmark landmarks 4) by lia.
  rewrite (nth_error_landmark landmarks 8) by lia.
  cbn [HandManager.bind]. fold (HandManager.pinchDistanceOf hypot landmarks).
  destruct (HandManager.fingerOpen landmarks 8 6),
           (HandManager.fingerOpen landmarks 12 10),
           (HandManager.fingerOpen landmarks 16 14),
           (HandManager.fingerOpen landmarks 20 18);
    cbn [negb andb orb HandManager.classify_spec];
    destruct (HandManager.pinchDistanceOf hypot landmarks <? 0.05)%float; reflexivity.
Qed.

End ClassifierFacts.

(** C6: on every array of 21 landmarks the classifier returns the first
    match of the priority list FIST (no finger open), PINCH (thumb tip to
    index tip distance below 0.05), OPEN (index, middle, ring open or
    middle, ring, pinky open), NONE, a finger being open iff its tip's y is
    strictly less than its PIP joint's y.  In particular four closed
    fingers give FIST, and four open fingers give PINCH below the
    threshold and OPEN otherwise. *)
Theorem detectGesture_priority :
  forall (hypot : float -> float -> float)
         (landmarks : list HandManager.Landmark),
    List.length landmarks = 21 ->
    let indexOpen := HandManager.fingerOpen landmarks 8 6 in
    let middleOpen := HandManager.fingerOpen landmarks 12 10 in
    let ringOpen := HandManager.fingerOpen landmarks 16 14 in
    let pinkyOpen := HandManager.fingerOpen landmarks 20 18 in
    let pinchDistance := HandManager.pinchDistanceOf hypot landmarks in
    HandManager.detectGesture hypot landmarks
    = Some (if negb (indexOpen || middleOpen || ringOpen || pinkyOpen)
            then FIST
            else if (pinchDistance <? 0.05)%float then PINCH
            else if (indexOpen && middleOpen && ringOpen)
                    || (middleOpen && ringOpen && pinkyOpen) then OPEN
            else NONE)
    /\ (indexOpen || middleOpen || ringOpen || pinkyOpen = false ->
        HandManager.detectGesture hypot landmarks = Some FIST)
    /\ (indexOpen && middleOpen && ringOpen && pinkyOpen = true ->
        HandManager.detectGesture hypot landmarks
        = Some (if (pinchDistance <? 0.05)%float then PINCH else OPEN)).
Proof.
  intros hypot landmarks Hlen io mo ro po d.
  rewrite (detectGesture_classify hypot landmarks) by lia.
  fold io mo ro po d.
  destruct io, mo, ro, po; cbn [negb andb orb HandManager.classify_spec];
    (split; [| split]); try discriminate;
    destruct (d <? 0.05)%float; reflexivity.
Qed.

Lemma detectGesture_priority_witness :
  List.length HandManager.pinchHand = 21
  /\ HandManager.detectGesture HandManager.hypot_sqrt HandManager.pinchHand
     = Some PINCH
  /\ List.length HandManager.openHand = 21
  /\ HandManager.detectGesture HandManager.hypot_sqrt HandManager.openHand
     = Some OPEN
  /\ List.length HandManager.fistHand = 21
  /\ HandManager.detectGesture HandManager.hypot_sqrt HandManager.fistHand
     = Some FIST.
Proof.
  assert (Hp : List.length HandManager.pinchHand = 21) by reflexivity.
  assert (Ho : List.length HandManager.openHand = 21) by reflexivity.
  assert (Hf : List.length HandManager.fistHand = 21) by reflexivity.
  split; [exact Hp|]. split.
  { exact (proj2 (proj2 (detectGesture_priority HandManager.hypot_sqrt
                           HandManager.pinchHand Hp)) eq_refl). }
  split; [exact Ho|]. split.
  { exact (proj2 (proj2 (detectGesture_priority HandManager.hypot_sqrt
                           HandManager.openHand Ho)) eq_refl). }
  split; [exact Hf|].
  exact (proj1 (proj2 (detectGesture_priority HandManager.hypot_sqrt
                         HandManager.fistHand Hf)) eq_refl).
Defined.

(** C7: a frame with a detected hand reports the position
    ((0.5 - palmX) * 4, (0.5 - palmY) * 2), (palmX, palmY) being the
    midpoint of landmarks 0 and 9, together with the label of the
    classifier; a frame without a hand reports NONE at (0, 0). *)
Theorem onResults_reports :
  forall (hypot : float -> float -> float)
         (landmarks : list HandManager.Landmark)
         (otherHands : list (list HandManager.Landmark)),
    20 < List.length landmarks ->
    let wrist := HandManager.landmark landmarks 0 in
    let middleMcp := HandManager.landmark landmarks 9 in
    let palmX := ((HandManager.x wrist + HandManager.x middleMcp) / 2)%float in
    let palmY := ((HandManager.y wrist + HandManager.y middleMcp) / 2)%float in
    (exists gesture : GestureType,
        HandManager.detectGesture hypot landmarks = Some gesture
        /\ HandManager.onResults hypot (Some (landmarks :: otherHands))
           = Some (HandManager.mkReport gesture
                     ((0.5 - palmX) * 4)%float ((0.5 - palmY) * 2)%float))
    /\ HandManager.onResults hypot None
       = Some (HandManager.mkReport NONE 0 0)
    /\ HandManager.onResults hypot (Some [])
       = Some (HandManager.mkReport NONE 0 0).
Proof.
  intros hypot landmarks otherHands Hlen wrist middleMcp palmX palmY.
  split; [| split; reflexivity].
  eexists. split; [apply detectGesture_classify; exact Hlen|].
  unfold HandManager.onResults.
  rewrite (nth_error_landmark landmarks 0) by lia.
  rewrite (nth_error_landmark landmarks 9) by lia.
  rewrite (detectGesture_classify hypot landmarks Hlen).
  reflexivity.
Qed.

Lemma onResults_reports_witness :
  20 < List.length HandManager.openHand
  /\ HandManager.onResults HandManager.hypot_sqrt
       (Some [HandManager.openHand])
     = Some (HandManager.mkReport OPEN 0
               ((0.5 - (0.9 + 0.58) / 2) * 2)%float).
Proof.
  assert (H : 20 < List.length HandManager.openHand) by (simpl; lia).
  split; [exact H|].
  destruct (proj1 (onResults_reports HandManager.hypot_sqrt
                     HandManager.openHand [] H)) as (g & Hg & Hrep).
  rewrite Hrep. f_equal.
  assert (E : Some g = Some OPEN) by (rewrite <- Hg; reflexivity).
  injection E as ->. reflexivity.
Defined.

(** ** The ornament layout *)

Section LayoutFacts.

Local Open Scope R_scope.

Import Experience.

Variable CONFIG : Config.

(** Decide every comparison of draws in the goal. *)
Ltac split_draws :=
  repeat match goal with
         | |- context [gtb ?a ?b] => destruct (gtb a b)
         end.

(** The generator only moves its cursor. *)
Lemma ornament_draws (i : nat) (g : Rng) :
  draws (snd (ornament CONFIG i g)) = draws g.
Proof.
  unfold ornament, random; cbn [draws cursor].
  split_draws; reflexivity.
Qed.

(** The tree and scatter positions of ornament [i] in terms of the first
    five draws. *)
Lemma ornament_positions (i : nat) (g : Rng) :
  let u := fun k => draws g (cursor g + k)%nat in
  let yTree := TREE_HEIGHT CONFIG * (INR i / INR (PARTICLE_COUNT CONFIG) - 0.5) in
  let rCurrent := maxRadiusAtY CONFIG yTree * rScaleOf (u 0%nat) (u 1%nat) in
  let theta := INR i * goldenAngle in
  let rScatter := SCATTER_RADIUS CONFIG * Math_cbrt (u 2%nat) in
  let thetaScatter := u 3%nat * 2 * PI in
  let phiScatter := acos (2 * u 4%nat - 1) in
  positionTree (fst (ornament CONFIG i g))
  = (cos theta * rCurrent, yTree, sin theta * rCurrent)
  /\ positionScatter (fst (ornament CONFIG i g))
     = (rScatter * sin phiScatter * cos thetaScatter,
        rScatter * sin phiScatter * sin thetaScatter,
        rScatter * cos phiScatter).
Proof.
  intros u yTree rCurrent theta rScatter thetaScatter phiScatter.
  unfold rCurrent, rScatter, thetaScatter, phiScatter, u, rScaleOf.
  replace (cursor g + 0)%nat with (cursor g) by lia.
  replace (cursor g + 1)%nat with (S (cursor g)) by lia.
  replace (cursor g + 2)%nat with (S (S (cursor g))) by lia.
  replace (cursor g + 3)%nat with (S (S (S (cursor g)))) by lia.
  replace (cursor g + 4)%nat with (S (S (S (S (cursor g))))) by lia.
  unfold ornament, random; cbn [draws cursor].
  split_draws; split; reflexivity.
Qed.

Lemma ornaments_member (remaining : nat) :
  forall (i : nat) (g : Rng) (p : ParticleData),
    In p (fst (ornaments CONFIG remaining i g)) ->
    exists (j : nat) (g' : Rng),
      draws g' = draws g /\ p = fst (ornament CONFIG j g').
Proof.
  induction remaining as [|remaining IH]; intros i g p Hin; simpl in Hin.
  - contradiction.
  - destruct (ornament CONFIG i g) as [q g1] eqn:Eq.
    destruct (ornaments CONFIG remaining (S i) g1) as [ps g2] eqn:Eps.
    simpl in Hin. destruct Hin as [<- | Hin].
    + exists i, g. split; [reflexivity|]. rewrite Eq. reflexivity.
    + assert (Hin' : In p (fst (ornaments CONFIG remaining (S i) g1)))
        by (rewrite Eps; exact Hin).
      destruct (IH (S i) g1 p Hin') as (j & g' & Hd & Hp).
      exists j, g'. split; [| exact Hp].
      rewrite Hd. change g1 with (snd (q, g1)). rewrite <- Eq.
      apply ornament_draws.
Qed.

(** A point in spherical coordinates lies at its radius from the origin. *)
Lemma norm_spherical (r phi theta : R) :
  0 <= r ->
  norm (r * sin phi * cos theta, r * sin phi * sin theta, r * cos phi) = r.
Proof.
  intros Hr. unfold norm.
  pose proof (sin2_cos2 phi) as Hphi. pose proof (sin2_cos2 theta) as Hth.
  unfold Rsqr in Hphi, Hth.
  replace (r * sin phi * cos theta * (r * sin phi * cos theta)
           + r * sin phi * sin theta * (r * sin phi * sin theta)
           + r * cos phi * (r * cos phi))
    with (r * r * (sin phi * sin phi
                   * (sin theta * sin theta + cos theta * cos theta)
                   + cos phi * cos phi)) by ring.
  rewrite Hth, Rmult_1_r, Hphi, Rmult_1_r.
  apply sqrt_square. exact Hr.
Qed.

(** A point at angle [theta] and distance [r] from the vertical axis. *)
Lemma horizontalRadius_polar (r theta y : R) :
  0 <= r ->
  horizontalRadius (cos theta * r, y, sin theta * r) = r.
Proof.
  intros Hr. unfold horizontalRadius.
  pose proof (sin2_cos2 theta) as Hth. unfold Rsqr in Hth.
  replace (cos theta * r * (cos theta * r) + sin theta * r * (sin theta * r))
    with (r * r * (sin theta * sin theta + cos theta * cos theta)) by ring.
  rewrite Hth, Rmult_1_r.
  apply sqrt_square. exact Hr.
Qed.

(** The cube root of a draw is again in the unit interval. *)
Lemma Math_cbrt_unit (u : R) : 0 <= u < 1 -> 0 <= Math_cbrt u <= 1.
Proof.
  intros [H0 H1]. unfold Math_cbrt.
  destruct (Rlt_dec 0 u) as [Hpos|Hnpos].
  - unfold Rpower. split.
    + left. apply exp_pos.
    + left. rewrite <- exp_0. apply exp_increasing.
      assert (Hln : ln u < 0)
        by (rewrite <- ln_1; apply ln_increasing; assumption).
      nra.
  - destruct (Rlt_dec u 0) as [Hneg|_]; lra.
Qed.

Lemma Math_pow_nonneg (b e : R) : 0 <= Math_pow b e.
Proof.
  unfold Math_pow. destruct (Rlt_dec 0 b).
  - unfold Rpower. left. apply exp_pos.
  - lra.
Qed.

Lemma maxRadiusAtY_lower (yTree : R) :
  0 <= TREE_RADIUS_BOTTOM CONFIG -> 0.2 <= maxRadiusAtY CONFIG yTree.
Proof.
  intros Hrb. unfold maxRadiusAtY.
  pose proof (Math_pow_nonneg
                (1 - (yTree + TREE_HEIGHT CONFIG / 2) / TREE_HEIGHT CONFIG)
                0.9) as Hp.
  nra.
Qed.

Lemma rScaleOf_range (u1 u2 : R) :
  0 <= u2 < 1 -> 0 <= rScaleOf u1 u2 <= 1.15.
Proof.
  intros Hu. unfold rScaleOf. destruct (gtb u1 0.25); lra.
Qed.

(** The bounds of one ornament. *)
Lemma ornament_bounds (i : nat) (g : Rng) :
  0 <= TREE_RADIUS_BOTTOM CONFIG ->
  0 <= SCATTER_RADIUS CONFIG ->
  unitDraws g ->
  let p := fst (ornament CONFIG i g) in
  norm (positionScatter p) <= SCATTER_RADIUS CONFIG
  /\ horizontalRadius (positionTree p)
     <= 1.15 * maxRadiusAtY CONFIG (height (positionTree p)).
Proof.
  intros Hrb Hsr Hg p.
  destruct (ornament_positions i g) as [Htree Hscatter].
  cbv zeta in Htree, Hscatter. unfold p. rewrite Htree, Hscatter.
  pose proof (Math_cbrt_unit _ (Hg (cursor g + 2)%nat)) as Hc.
  pose proof (rScaleOf_range (draws g (cursor g + 0))
                (draws g (cursor g + 1)) (Hg _)) as Hs.
  set (yTree := TREE_HEIGHT CONFIG
                * (INR i / INR (PARTICLE_COUNT CONFIG) - 0.5)) in *.
  pose proof (maxRadiusAtY_lower yTree Hrb) as Hm.
  split.
  - rewrite norm_spherical by nra. nra.
  - rewrite horizontalRadius_polar by nra.
    cbn [height]. nra.
Qed.

End LayoutFacts.

(** The concrete run is a legitimate one, and its ornament is generated. *)
Lemma oneOrnament_wellFormed : Experience.wellFormed Experience.oneOrnament.
Proof.
  unfold Experience.wellFormed; simpl. repeat split; (lia || lra).
Qed.

Lemma surfaceDraws_unit : Experience.unitDraws Experience.surfaceDraws.
Proof.
  intros k. simpl. destruct k as [|[|k]]; lra.
Qed.

Lemma oneOrnament_generated :
  In (fst (Experience.ornament Experience.oneOrnament 0
             Experience.surfaceDraws))
     (Experience.particles
        (fst (Experience.generate Experience.oneOrnament []
                Experience.surfaceDraws))).
Proof.
  unfold Experience.generate.
  cbn [Experience.PARTICLE_COUNT Experience.oneOrnament Experience.ornaments].
  destruct (Experience.ornament Experience.oneOrnament 0
              Experience.surfaceDraws) as [q g1].
  cbn [Experience.photoPositionsFrom List.length fst Experience.particles].
  left. reflexivity.
Qed.

(** C9, as claimed, fails for the tree layout: with one ornament, tree
    height 12 and bottom radius 5, and the draws 0.5 and 0.96, the
    ornament sits at 1.14 times the maximal radius of its height, more
    than 0.7 beyond it. *)
Lemma surface_ornament_beyond_maxRadius :
  exists p : Experience.ParticleData,
    Experience.wellFormed Experience.oneOrnament
    /\ Experience.unitDraws Experience.surfaceDraws
    /\ In p (Experience.particles
               (fst (Experience.generate Experience.oneOrnament []
                       Experience.surfaceDraws)))
    /\ (Experience.horizontalRadius (Experience.positionTree p)
        = 1.14 * Experience.maxRadiusAtY Experience.oneOrnament
                   (Experience.height (Experience.positionTree p)))%R
    /\ (Experience.horizontalRadius (Experience.positionTree p)
        > Experience.maxRadiusAtY Experience.oneOrnament
            (Experience.height (Experience.positionTree p)) + 0.7)%R.
Proof.
  exists (fst (Experience.ornament Experience.oneOrnament 0
                 Experience.surfaceDraws)).
  split; [exact oneOrnament_wellFormed|].
  split; [exact surfaceDraws_unit|].
  split; [exact oneOrnament_generated|].
  destruct (ornament_positions Experience.oneOrnament 0
              Experience.surfaceDraws) as [Htree _].
  cbv zeta in Htree. rewrite Htree. clear Htree.
  cbn [Experience.surfaceDraws Experience.draws Experience.cursor Nat.add
       Experience.height].
  assert (Hscale : Experience.rScaleOf 0.5 0.96 = 1.14%R).
  { unfold Experience.rScaleOf, Experience.gtb.
    destruct (Rlt_dec 0.25 0.5); lra. }
  rewrite Hscale.
  set (m := Experience.maxRadiusAtY Experience.oneOrnament _).
  assert (Hmval : m = 5.2%R).
  { unfold m, Experience.maxRadiusAtY, Experience.Math_pow.
    cbn [Experience.TREE_HEIGHT Experience.TREE_RADIUS_BOTTOM
         Experience.PARTICLE_COUNT Experience.oneOrnament INR].
    replace (1 - (12 * (0 / 1 - 0.5) + 12 / 2) / 12)%R with 1%R by lra.
    destruct (Rlt_dec 0 1) as [_|H]; [| lra].
    unfold Rpower. rewrite ln_1, Rmult_0_r, exp_0. lra. }
  rewrite horizontalRadius_polar by lra.
  split; [ring | lra].
Qed.

(** C9, amended: for a well-formed configuration and draws in [0, 1),
    every generated ornament's scatter position lies within
    SCATTER_RADIUS of the origin, and its tree position lies within 1.15
    times maxRadiusAtY of the vertical axis, at its height. *)
Theorem ornament_layout_bounds :
  forall (cfg : Experience.Config) (photos : list string)
         (g : Experience.Rng) (p : Experience.ParticleData),
    Experience.wellFormed cfg ->
    Experience.unitDraws g ->
    In p (Experience.particles (fst (Experience.generate cfg photos g))) ->
    (Experience.norm (Experience.positionScatter p)
     <= Experience.SCATTER_RADIUS cfg)%R
    /\ (Experience.horizontalRadius (Experience.positionTree p)
        <= 1.15 * Experience.maxRadiusAtY cfg
                    (Experience.height (Experience.positionTree p)))%R.
Proof.
  intros cfg photos g p (_ & _ & Hrb & Hsr) Hg Hin.
  unfold Experience.generate in Hin.
  destruct (Experience.ornaments cfg (Experience.PARTICLE_COUNT cfg) 0 g)
    as [ps g1] eqn:Eps.
  destruct (Experience.photoPositionsFrom cfg _ photos 0 g1) as [qs g2].
  cbn [fst Experience.particles] in Hin.
  assert (Hin' : In p (fst (Experience.ornaments cfg
                              (Experience.PARTICLE_COUNT cfg) 0 g)))
    by (rewrite Eps; exact Hin).
  destruct (ornaments_member cfg _ _ _ _ Hin') as (j & g' & Hd & ->).
  apply ornament_bounds; try assumption.
  intros k. unfold Experience.unitDraws in Hg. rewrite Hd. apply Hg.
Qed.

Lemma ornament_layout_bounds_witness :
  let p := fst (Experience.ornament Experience.oneOrnament 0
                  Experience.surfaceDraws) in
  Experience.wellFormed Experience.oneOrnament
  /\ Experience.unitDraws Experience.surfaceDraws
  /\ In p (Experience.particles
             (fst (Experience.generate Experience.oneOrnament []
                     Experience.surfaceDraws)))
  /\ (Experience.norm (Experience.positionScatter p) <= 15)%R
  /\ (Experience.horizontalRadius (Experience.positionTree p)
      <= 1.15 * Experience.maxRadiusAtY Experience.oneOrnament
                  (Experience.height (Experience.positionTree p)))%R.
Proof.
  intros p.
  split; [exact oneOrnament_wellFormed|].
  split; [exact surfaceDraws_unit|].
  split; [exact oneOrnament_generated|].
  exact (ornament_layout_bounds Experience.oneOrnament []
           Experience.surfaceDraws p oneOrnament_wellFormed
           surfaceDraws_unit oneOrnament_generated).
Defined.

(** * Further properties of the handlers *)

(** X1: a gesture label detected on two frames in a row acts as the second
    frame alone: the detector reports every frame, and repeating a label
    changes nothing but the stored hand position. *)
Theorem repeated_gesture_absorbed :
  forall (g : GestureType) (hx1 hy1 hx2 hy2 : float) (s : App.State),
    App.handleGestureDetected g hx2 hy2
      (App.handleGestureDetected g hx1 hy1 s)
    = App.handleGestureDetected g hx2 hy2 s.
Proof.
  intros g hx1 hy1 hx2 hy2 [st cg ph fo hp ni].
  unfold App.handleGestureDetected, App.reducer, App.photoCount.
  destruct g, st; reflexivity.
Qed.

(** X2: the display state changes in four ways only: FIST to TREE, OPEN to
    SCATTER (focus index cleared), PINCH from SCATTER to FOCUS, and a
    remove click from FOCUS to SCATTER (focus index cleared).  An upload
    never changes it, and FOCUS is never entered from TREE. *)
Theorem display_state_changes :
  forall (e : App.event) (s : App.State),
    App.appState (App.step e s) <> App.appState s ->
    (exists hx hy, e = App.Gesture FIST hx hy
                   /\ App.appState (App.step e s) = TREE)
    \/ (exists hx hy, e = App.Gesture OPEN hx hy
                      /\ App.appState (App.step e s) = SCATTER
                      /\ App.focusedPhotoIndex (App.step e s) = None)
    \/ (exists hx hy, e = App.Gesture PINCH hx hy
                      /\ App.appState s = SCATTER
                      /\ App.appState (App.step e s) = FOCUS)
    \/ (e = App.RemoveClick
        /\ App.appState s = FOCUS
        /\ App.appState (App.step e s) = SCATTER
        /\ App.focusedPhotoIndex (App.step e s) = None).
Proof.
  intros e [st cg ph fo hp ni] Hchange.
  destruct e as [g hx hy | file |].
  - simpl in *.
    unfold App.handleGestureDetected, App.reducer in *; simpl in *.
    destruct g, st; simpl in *; try (exfalso; apply Hchange; reflexivity).
    all: first
      [ left; exists hx, hy; split; reflexivity
      | right; left; exists hx, hy; repeat split; reflexivity
      | right; right; left; exists hx, hy; repeat split; reflexivity ].
  - exfalso. apply Hchange. destruct file; reflexivity.
  - right; right; right. simpl in *.
    unfold App.isFocusMode, App.handleRemovePhoto in *; simpl in *.
    destruct st; simpl in *; try (exfalso; apply Hchange; reflexivity).
    destruct fo as [idx|]; simpl in *;
      [| exfalso; apply Hchange; reflexivity].
    destruct (js_get (App.urls ph) idx); simpl in *;
      [| exfalso; apply Hchange; reflexivity].
    repeat split; reflexivity.
Qed.

Lemma display_state_changes_witness :
  let s := App.run [App.Gesture OPEN 0 0] App.initial in
  let e := App.Gesture PINCH 0 0 in
  App.appState (App.step e s) <> App.appState s
  /\ ((exists hx hy, e = App.Gesture FIST hx hy
                     /\ App.appState (App.step e s) = TREE)
      \/ (exists hx hy, e = App.Gesture OPEN hx hy
                        /\ App.appState (App.step e s) = SCATTER
                        /\ App.focusedPhotoIndex (App.step e s) = None)
      \/ (exists hx hy, e = App.Gesture PINCH hx hy
                        /\ App.appState s = SCATTER
                        /\ App.appState (App.step e s) = FOCUS)
      \/ (e = App.RemoveClick
          /\ App.appState s = FOCUS
          /\ App.appState (App.step e s) = SCATTER
          /\ App.focusedPhotoIndex (App.step e s) = None)).
Proof.
  intros s e.
  assert (H : App.appState (App.step e s) <> App.appState s)
    by (vm_compute; discriminate).
  split; [exact H|].
  exact (display_state_changes e s H).
Defined.

(** X3: in every reachable state the remove button is rendered exactly
    when the display state is FOCUS. *)
Theorem remove_button_iff_FOCUS :
  forall s : App.State,
    App.reachable s ->
    App.isFocusMode s = AppState_eqb (App.appState s) FOCUS.
Proof.
  intros s Hreach.
  pose proof (reachable_focus_invariant s Hreach) as Hinv.
  unfold App.focus_invariant in Hinv. unfold App.isFocusMode.
  destruct (App.appState s); simpl; try reflexivity.
  rewrite Hinv. reflexivity.
Qed.

Lemma remove_button_iff_FOCUS_witness :
  let s := App.run App.focus_then_fist App.initial in
  App.reachable s /\ App.isFocusMode s = AppState_eqb (App.appState s) FOCUS.
Proof.
  intros s.
  assert (H : App.reachable s)
    by (exists App.focus_then_fist; reflexivity).
  split; [exact H|].
  exact (remove_button_iff_FOCUS s H).
Defined.

(** X4: in a reachable state the remove handler throws exactly when the
    focus index is non-null and the photo collection is empty. *)
Theorem remove_throws_iff_empty :
  forall s : App.State,
    App.reachable s ->
    (App.handleRemovePhoto s = App.Throws
     <-> App.focusedPhotoIndex s <> None /\ App.photoCount s = 0).
Proof.
  intros s Hreach.
  pose proof (reachable_focus_invariant s Hreach) as Hinv.
  assert (Hfo : App.focusedPhotoIndex s = None
                \/ App.focusedPhotoIndex s = Some (Int 0)).
  { unfold App.focus_invariant in Hinv. destruct (App.appState s); auto. }
  unfold App.handleRemovePhoto, App.photoCount.
  destruct Hfo as [-> | ->].
  - split; [discriminate | intros [H _]; contradiction].
  - simpl. destruct (App.urls (App.photos s)); simpl.
    + split; [intros _; split; [discriminate | reflexivity] | reflexivity].
    + split; [discriminate | intros [_ H]; discriminate].
Qed.

Lemma remove_throws_iff_empty_witness :
  let s := App.run (App.remove_all_defaults ++ [App.Gesture PINCH 0 0])
             App.initial in
  App.reachable s /\ App.handleRemovePhoto s = App.Throws.
Proof.
  intros s.
  assert (H : App.reachable s)
    by (exists (App.remove_all_defaults ++ [App.Gesture PINCH 0 0]);
        reflexivity).
  split; [exact H|].
  apply (proj2 (remove_throws_iff_empty s H)).
  split; [vm_compute; discriminate | reflexivity].
Defined.

(** X5: in a reachable state a click on the remove button deletes the
    first photo of the collection: PINCH always focuses index 0. *)
Theorem remove_click_drops_first :
  forall (s : App.State) (u : string) (rest : list string),
    App.reachable s ->
    App.appState s = FOCUS ->
    App.urls (App.photos s) = u :: rest ->
    App.step App.RemoveClick s
    = App.mkState SCATTER (App.currentGesture s)
        (App.mkPhotoArray (App.nextIdent s) rest) None
        (App.handPosition s) (S (App.nextIdent s)).
Proof.
  intros s u rest Hreach Hst Hurls.
  pose proof (reachable_focus_invariant s Hreach) as Hinv.
  unfold App.focus_invariant in Hinv. rewrite Hst in Hinv.
  unfold App.step, App.isFocusMode, App.handleRemovePhoto.
  rewrite Hst, Hinv, Hurls. simpl.
  unfold filter_index. cbn [filter_index_from jsindex_eqb Z.eqb negb].
  rewrite filter_index_from_past by lia. reflexivity.
Qed.

Lemma remove_click_drops_first_witness :
  let s := App.run [App.Gesture OPEN 0 0; App.Gesture PINCH 0 0] App.initial in
  App.reachable s
  /\ App.appState s = FOCUS
  /\ App.urls (App.photos (App.step App.RemoveClick s))
     = [ "https://picsum.photos/400/400";
         "https://picsum.photos/500/400";
         "https://picsum.photos/400/500" ]%string.
Proof.
  intros s.
  assert (H : App.reachable s)
    by (exists [App.Gesture OPEN 0 0; App.Gesture PINCH 0 0]; reflexivity).
  assert (Hst : App.appState s = FOCUS) by reflexivity.
  split; [exact H|]. split; [exact Hst|].
  rewrite (remove_click_drops_first s _ _ H Hst eq_refl). reflexivity.
Defined.

(** Reading an array that has grown by one element. *)
Lemma js_get_app {A : Type} (arr : list A) (a : A) (i : jsindex) :
  js_get (arr ++ [a]) i
  = match js_get arr i with
    | Some u => Some u
    | None =>
        if jsindex_eqb i (App.index (List.length arr)) then Some a else None
    end.
Proof.
  unfold js_get, App.index. destruct i as [k|]; [| reflexivity].
  destruct (Z.ltb_spec k 0) as [Hneg|Hpos].
  - cbn [jsindex_eqb].
    destruct (Z.eqb_spec k (Z.of_nat (List.length arr))) as [E|_];
      [lia | reflexivity].
  - cbn [jsindex_eqb].
    destruct (Nat.lt_ge_cases (Z.to_nat k) (List.length arr)) as [Hlt|Hge].
    + rewrite nth_error_app1 by exact Hlt.
      destruct (nth_error arr (Z.to_nat k)) as [u|] eqn:E; [reflexivity|].
      apply nth_error_None in E. lia.
    + rewrite nth_error_app2 by exact Hge.
      assert (E : nth_error arr (Z.to_nat k) = None)
        by (apply nth_error_None; exact Hge).
      rewrite E.
      destruct (Z.eqb_spec k (Z.of_nat (List.length arr))) as [Heq|Hne].
      * subst k. rewrite Nat2Z.id, Nat.sub_diag. reflexivity.
      * assert (Hgt : Z.to_nat k - List.length arr <> 0) by lia.
        destruct (Z.to_nat k - List.length arr) as [|d]; [contradiction|].
        destruct d; reflexivity.
Qed.

(** X6: an upload appends, on every collection, the empty one included:
    the collection grows by one, every index reads what it read before
    except the next free index, which reads the new url, and display state
    and focus index are kept; without a chosen file nothing changes. *)
Theorem upload_appends :
  forall (s : App.State) (url : string),
    let s' := App.handlePhotoUpload (Some url) s in
    App.photoCount s' = S (App.photoCount s)
    /\ (forall i : jsindex,
          js_get (App.urls (App.photos s')) i
          = match js_get (App.urls (App.photos s)) i with
            | Some u => Some u
            | None =>
                if jsindex_eqb i (App.index (App.photoCount s))
                then Some url else None
            end)
    /\ App.appState s' = App.appState s
    /\ App.focusedPhotoIndex s' = App.focusedPhotoIndex s
    /\ App.handlePhotoUpload None s = s.
Proof.
  intros s url s'.
  unfold s', App.photoCount, App.handlePhotoUpload.
  cbn [App.photos App.urls App.appState App.focusedPhotoIndex].
  split; [| split; [| repeat split; reflexivity]].
  - rewrite length_app. simpl. lia.
  - intros i. apply js_get_app.
Qed.

Lemma upload_appends_witness :
  let s := App.run App.remove_all_defaults App.initial in
  let s' := App.handlePhotoUpload (Some "blob:a"%string) s in
  App.photoCount s = 0
  /\ App.photoCount s' = 1
  /\ js_get (App.urls (App.photos s')) (Int 0) = Some "blob:a"%string.
Proof.
  intros s s'.
  destruct (upload_appends s "blob:a"%string) as (Hcount & Hget & _).
  split; [reflexivity|]. split; [exact Hcount|].
  exact (eq_trans (Hget (Int 0)) eq_refl).
Defined.

(** * Further properties of the classifier *)

Lemma isFingerOpen_pinky_short (landmarks : list HandManager.Landmark) :
  List.length landmarks <= 20 ->
  HandManager.isFingerOpen landmarks 20 18 = None.
Proof.
  intros Hlen. unfold HandManager.isFingerOpen.
  assert (E : nth_error landmarks 20 = None)
    by (apply nth_error_None; exact Hlen).
  rewrite E. reflexivity.
Qed.

Lemma detectGesture_short (hypot : float -> float -> float)
  (landmarks : list HandManager.Landmark) :
  List.length landmarks <= 20 ->
  HandManager.detectGesture hypot landmarks = None.
Proof.
  intros Hlen. unfold HandManager.detectGesture.
  rewrite (isFingerOpen_pinky_short landmarks Hlen).
  destruct (HandManager.isFingerOpen landmarks 8 6); [| reflexivity].
  destruct (HandManager.isFingerOpen landmarks 12 10); [| reflexivity].
  destruct (HandManager.isFingerOpen landmarks 16 14); reflexivity.
Qed.

Lemma onResults_short (hypot : float -> float -> float)
  (landmarks : list HandManager.Landmark)
  (otherHands : list (list HandManager.Landmark)) :
  List.length landmarks <= 20 ->
  HandManager.onResults hypot (Some (landmarks :: otherHands)) = None.
Proof.
  intros Hlen. unfold HandManager.onResults.
  rewrite (detectGesture_short hypot landmarks Hlen).
  destruct (nth_error landmarks 0); [| reflexivity].
  destruct (nth_error landmarks 9); reflexivity.
Qed.

Lemma onResults_long (hypot : float -> float -> float)
  (landmarks : list HandManager.Landmark)
  (otherHands : list (list HandManager.Landmark)) :
  20 < List.length landmarks ->
  HandManager.onResults hypot (Some (landmarks :: otherHands)) <> None.
Proof.
  intros Hlen. unfold HandManager.onResults.
  rewrite (nth_error_landmark landmarks 0) by lia.
  rewrite (nth_error_landmark landmarks 9) by lia.
  rewrite (detectGesture_classify hypot landmarks Hlen).
  discriminate.
Qed.

(** What a full first hand reports. *)
Lemma onResults_reports_total (hypot : float -> float -> float)
  (landmarks : list HandManager.Landmark)
  (otherHands : list (list HandManager.Landmark)) :
  20 < List.length landmarks ->
  exists hx hy : float,
    HandManager.onResults hypot (Some (landmarks :: otherHands))
    = Some (HandManager.mkReport
              (HandManager.classify_spec
                 (HandManager.fingerOpen landmarks 8 6)
                 (HandManager.fingerOpen landmarks 12 10)
                 (HandManager.fingerOpen landmarks 16 14)
                 (HandManager.fingerOpen landmarks 20 18)
                 (HandManager.pinchDistanceOf hypot landmarks))
              hx hy).
Proof.
  intros Hlen. unfold HandManager.onResults.
  rewrite (nth_error_landmark landmarks 0) by lia.
  rewrite (nth_error_landmark landmarks 9) by lia.
  rewrite (detectGesture_classify hypot landmarks Hlen).
  eexists. eexists. reflexivity.
Qed.

(** X7: the classifier throws exactly on arrays that lack landmark 20, and
    the frame callback throws, reporting nothing and leaving the
    application state as it is, exactly when the first detected hand is
    such an array; further hands are never read. *)
Theorem classifier_throws_iff_short :
  forall (hypot : float -> float -> float)
         (landmarks : list HandManager.Landmark)
         (multiHandLandmarks : option (list (list HandManager.Landmark))),
    (HandManager.detectGesture hypot landmarks = None
     <-> List.length landmarks <= 20)
    /\ (HandManager.onResults hypot multiHandLandmarks = None
        <-> exists first otherHands,
              multiHandLandmarks = Some (first :: otherHands)
              /\ List.length first <= 20)
    /\ (forall s : App.State,
          detectionFrame hypot multiHandLandmarks s = App.Throws
          <-> HandManager.onResults hypot multiHandLandmarks = None).
Proof.
  intros hypot landmarks results. split; [| split].
  3: { intros s. unfold detectionFrame.
       destruct (HandManager.onResults hypot results);
         split; intros H; (discriminate H || reflexivity). }
  - split.
    + intros Hnone.
      destruct (Nat.le_gt_cases (List.length landmarks) 20) as [H|H];
        [exact H|].
      rewrite (detectGesture_classify hypot landmarks H) in Hnone.
      discriminate.
    + apply detectGesture_short.
  - split.
    + intros Hnone.
      destruct results as [[|first otherHands]|]; try discriminate.
      exists first, otherHands. split; [reflexivity|].
      destruct (Nat.le_gt_cases (List.length first) 20) as [H|H];
        [exact H|].
      exfalso. exact (onResults_long hypot first otherHands H Hnone).
    + intros (first & otherHands & -> & Hlen).
      apply onResults_short. exact Hlen.
Qed.

(** X8: on a full frame each label is reported under exactly one
    condition.  OPEN needs middle and ring open together with index or
    pinky, and no pinch; three open fingers that leave out middle or ring
    are reported as NONE. *)
Theorem gesture_labels_characterised :
  forall (hypot : float -> float -> float)
         (landmarks : list HandManager.Landmark),
    20 < List.length landmarks ->
    let indexOpen := HandManager.fingerOpen landmarks 8 6 in
    let middleOpen := HandManager.fingerOpen landmarks 12 10 in
    let ringOpen := HandManager.fingerOpen landmarks 16 14 in
    let pinkyOpen := HandManager.fingerOpen landmarks 20 18 in
    let pinch :=
      (HandManager.pinchDistanceOf hypot landmarks <? 0.05)%float in
    let anyOpen := indexOpen || middleOpen || ringOpen || pinkyOpen in
    let threeAdjacent := middleOpen && ringOpen && (indexOpen || pinkyOpen) in
    let result := HandManager.detectGesture hypot landmarks in
    (result = Some FIST <-> anyOpen = false)
    /\ (result = Some PINCH <-> anyOpen = true /\ pinch = true)
    /\ (result = Some OPEN <-> pinch = false /\ threeAdjacent = true)
    /\ (result = Some NONE
        <-> anyOpen = true /\ pinch = false /\ threeAdjacent = false).
Proof.
  intros hypot landmarks Hlen io mo ro po pinch anyOpen three result.
  unfold result. rewrite (detectGesture_classify hypot landmarks Hlen).
  fold io mo ro po. unfold anyOpen, three.
  unfold HandManager.classify_spec. fold pinch.
  destruct io, mo, ro, po, pinch; cbn [andb orb];
    repeat split; intros; try discriminate; try reflexivity;
    repeat match goal with
           | H : _ /\ _ |- _ => destruct H
           end; discriminate.
Qed.

Lemma gesture_labels_characterised_witness :
  20 < List.length HandManager.openHand
  /\ (HandManager.detectGesture HandManager.hypot_sqrt HandManager.openHand
      = Some OPEN
      <-> (HandManager.pinchDistanceOf HandManager.hypot_sqrt
             HandManager.openHand <? 0.05)%float = false
          /\ HandManager.fingerOpen HandManager.openHand 12 10
             && HandManager.fingerOpen HandManager.openHand 16 14
             && (HandManager.fingerOpen HandManager.openHand 8 6
                 || HandManager.fingerOpen HandManager.openHand 20 18)
             = true).
Proof.
  assert (H : 20 < List.length HandManager.openHand) by (simpl; lia).
  split; [exact H|].
  exact (proj1 (proj2 (proj2 (gesture_labels_characterised
                                HandManager.hypot_sqrt
                                HandManager.openHand H)))).
Defined.

(** X9: a frame without a detected hand keeps display state, focus index
    and photos; it records the gesture NONE and the hand position
    (0, 0). *)
Theorem frame_without_hand :
  forall (hypot : float -> float -> float) (s : App.State),
    let s' := App.mkState (App.appState s) NONE (App.photos s)
                (App.focusedPhotoIndex s) (0%float, 0%float)
                (App.nextIdent s) in
    detectionFrame hypot None s = App.Returns s'
    /\ detectionFrame hypot (Some []) s = App.Returns s'.
Proof.
  intros hypot [st cg ph fo hp ni]. simpl.
  unfold detectionFrame, App.handleGestureDetected, App.reducer; simpl.
  split; reflexivity.
Qed.

(** X10: a frame whose first hand has the four fingers closed brings the
    display to TREE from any state, whatever the thumb does and whatever
    [Math.hypot] returns; focus index and photos are kept. *)
Theorem closed_hand_frame_yields_tree :
  forall (hypot : float -> float -> float)
         (landmarks : list HandManager.Landmark)
         (otherHands : list (list HandManager.Landmark)) (s : App.State),
    20 < List.length landmarks ->
    HandManager.fingerOpen landmarks 8 6
    || HandManager.fingerOpen landmarks 12 10
    || HandManager.fingerOpen landmarks 16 14
    || HandManager.fingerOpen landmarks 20 18 = false ->
    exists s' : App.State,
      detectionFrame hypot (Some (landmarks :: otherHands)) s
      = App.Returns s'
      /\ App.appState s' = TREE
      /\ App.currentGesture s' = FIST
      /\ App.focusedPhotoIndex s' = App.focusedPhotoIndex s
      /\ App.photos s' = App.photos s.
Proof.
  intros hypot landmarks otherHands s Hlen Hclosed.
  destruct (onResults_reports_total hypot landmarks otherHands Hlen)
    as (hx & hy & Hrep).
  unfold detectionFrame. rewrite Hrep.
  assert (Hg : HandManager.classify_spec
                 (HandManager.fingerOpen landmarks 8 6)
                 (HandManager.fingerOpen landmarks 12 10)
                 (HandManager.fingerOpen landmarks 16 14)
                 (HandManager.fingerOpen landmarks 20 18)
                 (HandManager.pinchDistanceOf hypot landmarks) = FIST).
  { destruct (HandManager.fingerOpen landmarks 8 6),
             (HandManager.fingerOpen landmarks 12 10),
             (HandManager.fingerOpen landmarks 16 14),
             (HandManager.fingerOpen landmarks 20 18);
      try discriminate Hclosed; reflexivity. }
  cbn [HandManager.gesture HandManager.handX HandManager.handY].
  rewrite Hg. eexists. split; [reflexivity|].
  destruct s as [st cg ph fo hp ni].
  unfold App.handleGestureDetected, App.reducer; simpl.
  destruct st; simpl; repeat split; reflexivity.
Qed.

Lemma closed_hand_frame_yields_tree_witness :
  20 < List.length HandManager.fistHand
  /\ detectionFrame HandManager.hypot_sqrt (Some [HandManager.fistHand])
       (App.run [App.Gesture OPEN 0 0; App.Gesture PINCH 0 0] App.initial)
     <> App.Throws.
Proof.
  assert (H : 20 < List.length HandManager.fistHand) by (simpl; lia).
  split; [exact H|].
  destruct (closed_hand_frame_yields_tree HandManager.hypot_sqrt
              HandManager.fistHand []
              (App.run [App.Gesture OPEN 0 0; App.Gesture PINCH 0 0]
                 App.initial) H eq_refl) as (s' & Hs' & _).
  rewrite Hs'. discriminate.
Defined.

(** * Further properties of the layout *)

Section GeneratorFacts.

Local Open Scope R_scope.

Import Experience.

Variable CONFIG : Config.

Ltac case_draws :=
  repeat match goal with
         | |- context [gtb ?a ?b] => destruct (gtb a b)
         end.

Lemma photoPosition_draws (n : nat) (u : string) (i : nat) (g : Rng) :
  draws (snd (photoPosition CONFIG n u i g)) = draws g.
Proof. reflexivity. Qed.

Lemma ornaments_draws (remaining : nat) :
  forall (i : nat) (g : Rng),
    draws (snd (ornaments CONFIG remaining i g)) = draws g.
Proof.
  induction remaining as [|remaining IH]; intros i g; simpl; [reflexivity|].
  destruct (ornament CONFIG i g) as [p g1] eqn:Ep.
  destruct (ornaments CONFIG remaining (S i) g1) as [ps g2] eqn:Eps.
  simpl.
  pose proof (IH (S i) g1) as H2. rewrite Eps in H2. simpl in H2.
  pose proof (ornament_draws CONFIG i g) as H1. rewrite Ep in H1.
  simpl in H1. exact (eq_trans H2 H1).
Qed.

Lemma photoPositionsFrom_draws (n : nat) (photos : list string) :
  forall (i : nat) (g : Rng),
    draws (snd (photoPositionsFrom CONFIG n photos i g)) = draws g.
Proof.
  induction photos as [|u rest IH]; intros i g; [reflexivity|].
  cbn [photoPositionsFrom].
  destruct (photoPosition CONFIG n u i g) as [p g1] eqn:Ep.
  destruct (photoPositionsFrom CONFIG n rest (S i) g1) as [ps g2] eqn:Eps.
  cbn [snd].
  pose proof (IH (S i) g1) as H2. rewrite Eps in H2. simpl in H2.
  pose proof (photoPosition_draws n u i g) as H1. rewrite Ep in H1.
  simpl in H1. exact (eq_trans H2 H1).
Qed.

(** Generating a layout moves the cursor of the generator and nothing
    else. *)
Lemma generate_draws (photos : list string) (g : Rng) :
  draws (snd (generate CONFIG photos g)) = draws g.
Proof.
  unfold generate.
  destruct (ornaments CONFIG (PARTICLE_COUNT CONFIG) 0 g) as [ps g1] eqn:Eps.
  destruct (photoPositionsFrom CONFIG (List.length photos) photos 0 g1)
    as [qs g2] eqn:Eqs.
  simpl.
  pose proof (photoPositionsFrom_draws (List.length photos) photos 0 g1)
    as H2.
  rewrite Eqs in H2. simpl in H2.
  pose proof (ornaments_draws (PARTICLE_COUNT CONFIG) 0 g) as H1.
  rewrite Eps in H1. simpl in H1. exact (eq_trans H2 H1).
Qed.

Lemma ornament_id (i : nat) (g : Rng) : id (fst (ornament CONFIG i g)) = i.
Proof.
  unfold ornament, random; cbn [draws cursor]. case_draws; reflexivity.
Qed.

Lemma ornaments_ids (remaining : nat) :
  forall (i : nat) (g : Rng),
    map id (fst (ornaments CONFIG remaining i g)) = seq i remaining.
Proof.
  induction remaining as [|remaining IH]; intros i g; simpl; [reflexivity|].
  destruct (ornament CONFIG i g) as [p g1] eqn:Ep.
  specialize (IH (S i) g1).
  destruct (ornaments CONFIG remaining (S i) g1) as [ps g2].
  simpl in *. rewrite IH. f_equal.
  change p with (fst (p, g1)). rewrite <- Ep. apply ornament_id.
Qed.

(** The name [photo-i] of the photo at index [i]. *)
Lemma photoPositionsFrom_urls (n : nat) (photos : list string) :
  forall (i : nat) (g : Rng),
    let qs := fst (photoPositionsFrom CONFIG n photos i g) in
    map url qs = photos
    /\ map photoId qs
       = map (fun j => ("photo-" ++ NilZero.string_of_uint (Nat.to_uint j))%string)
           (seq i (List.length photos)).
Proof.
  induction photos as [|u rest IH]; intros i g; [split; reflexivity|].
  cbn [photoPositionsFrom].
  destruct (photoPosition CONFIG n u i g) as [p g1] eqn:Ep.
  specialize (IH (S i) g1).
  destruct (photoPositionsFrom CONFIG n rest (S i) g1) as [ps g2].
  cbn [fst map List.length seq] in *. destruct IH as [IHu IHn].
  rewrite IHu, IHn.
  assert (Hp : p = fst (photoPosition CONFIG n u i g))
    by (rewrite Ep; reflexivity).
  rewrite Hp. split; reflexivity.
Qed.

End GeneratorFacts.

(** The ids, urls and names of a generated layout. *)
Lemma generate_structure :
  forall (cfg : Experience.Config) (photos : list string)
         (g : Experience.Rng),
    let layout := fst (Experience.generate cfg photos g) in
    map Experience.id (Experience.particles layout)
    = seq 0 (Experience.PARTICLE_COUNT cfg)
    /\ map Experience.url (Experience.photoPositions layout) = photos
    /\ map Experience.photoId (Experience.photoPositions layout)
       = map (fun i => ("photo-" ++ NilZero.string_of_uint (Nat.to_uint i))%string)
           (seq 0 (List.length photos))
    /\ List.length (Experience.photoPositions layout) = List.length photos.
Proof.
  intros cfg photos g layout. unfold layout, Experience.generate.
  pose proof (ornaments_ids cfg (Experience.PARTICLE_COUNT cfg) 0 g) as Hids.
  destruct (Experience.ornaments cfg (Experience.PARTICLE_COUNT cfg) 0 g)
    as [ps g1].
  pose proof (photoPositionsFrom_urls cfg (List.length photos) photos 0 g1)
    as [Hu Hn].
  destruct (Experience.photoPositionsFrom cfg (List.length photos) photos 0 g1)
    as [qs g2].
  simpl in *. split; [exact Hids|]. split; [exact Hu|]. split; [exact Hn|].
  rewrite <- (length_map Experience.url qs), Hu. reflexivity.
Qed.

(** X11: a generated layout has one ornament per index below
    PARTICLE_COUNT, in order, and one photo position per photo, in the
    order of the collection, carrying the photo's url and the name
    photo-i; so the i-th mesh shows the i-th photo. *)
Theorem layout_follows_photos :
  forall (cfg : Experience.Config) (photos : list string)
         (g : Experience.Rng),
    let layout := fst (Experience.generate cfg photos g) in
    map Experience.id (Experience.particles layout)
    = seq 0 (Experience.PARTICLE_COUNT cfg)
    /\ map Experience.url (Experience.photoPositions layout) = photos
    /\ map Experience.photoId (Experience.photoPositions layout)
       = map (fun i => ("photo-" ++ NilZero.string_of_uint (Nat.to_uint i))%string)
           (seq 0 (List.length photos))
    /\ List.length (Experience.photoPositions layout) = List.length photos.
Proof.
  intros cfg photos g. exact (generate_structure cfg photos g).
Qed.

Section BoundsFacts.

Local Open Scope R_scope.

Import Experience.

Variable CONFIG : Config.

Ltac case_draws :=
  repeat match goal with
         | |- context [gtb ?a ?b] => destruct (gtb a b)
         end.

Lemma ornaments_member_range (remaining : nat) :
  forall (i : nat) (g : Rng) (p : ParticleData),
    In p (fst (ornaments CONFIG remaining i g)) ->
    exists (j : nat) (g' : Rng),
      (i <= j < i + remaining)%nat
      /\ draws g' = draws g
      /\ p = fst (ornament CONFIG j g').
Proof.
  induction remaining as [|remaining IH]; intros i g p Hin; simpl in Hin.
  - contradiction.
  - destruct (ornament CONFIG i g) as [q g1] eqn:Eq.
    destruct (ornaments CONFIG remaining (S i) g1) as [ps g2] eqn:Eps.
    simpl in Hin. destruct Hin as [<- | Hin].
    + exists i, g. split; [lia|]. split; [reflexivity|].
      rewrite Eq. reflexivity.
    + assert (Hin' : In p (fst (ornaments CONFIG remaining (S i) g1)))
        by (rewrite Eps; exact Hin).
      destruct (IH (S i) g1 p Hin') as (j & g' & Hj & Hd & Hp).
      exists j, g'. split; [lia|]. split; [| exact Hp].
      pose proof (ornament_draws CONFIG i g) as H1. rewrite Eq in H1.
      simpl in H1. exact (eq_trans Hd H1).
Qed.

Lemma photoPositions_member_range (n : nat) (photos : list string) :
  forall (i : nat) (g : Rng) (q : PhotoData),
    In q (fst (photoPositionsFrom CONFIG n photos i g)) ->
    exists (j : nat) (u : string) (g' : Rng),
      (i <= j < i + List.length photos)%nat
      /\ draws g' = draws g
      /\ q = fst (photoPosition CONFIG n u j g').
Proof.
  induction photos as [|u rest IH]; intros i g q Hin.
  - contradiction.
  - cbn [photoPositionsFrom] in Hin.
    destruct (photoPosition CONFIG n u i g) as [p g1] eqn:Ep.
    destruct (photoPositionsFrom CONFIG n rest (S i) g1) as [ps g2] eqn:Eps.
    cbn [fst] in Hin. destruct Hin as [<- | Hin].
    + exists i, u, g. split; [simpl; lia|]. split; [reflexivity|].
      rewrite Ep. reflexivity.
    + assert (Hin' : In q (fst (photoPositionsFrom CONFIG n rest (S i) g1)))
        by (rewrite Eps; exact Hin).
      destruct (IH (S i) g1 q Hin') as (j & u' & g' & Hj & Hd & Hq).
      exists j, u', g'. split; [simpl; lia|]. split; [| exact Hq].
      pose proof (photoPosition_draws CONFIG n u i g) as H1.
      rewrite Ep in H1. simpl in H1. exact (eq_trans Hd H1).
Qed.

(** Members of a generated layout. *)
Lemma particles_member (photos : list string) (g : Rng) (p : ParticleData) :
  In p (particles (fst (generate CONFIG photos g))) ->
  exists (j : nat) (g' : Rng),
    (j < PARTICLE_COUNT CONFIG)%nat
    /\ draws g' = draws g
    /\ p = fst (ornament CONFIG j g').
Proof.
  unfold generate. intros Hin.
  destruct (ornaments CONFIG (PARTICLE_COUNT CONFIG) 0 g) as [ps g1] eqn:Eps.
  destruct (photoPositionsFrom CONFIG _ photos 0 g1) as [qs g2].
  cbn [fst particles] in Hin.
  assert (Hin' : In p (fst (ornaments CONFIG (PARTICLE_COUNT CONFIG) 0 g)))
    by (rewrite Eps; exact Hin).
  destruct (ornaments_member_range _ _ _ _ Hin') as (j & g' & Hj & Hd & Hp).
  exists j, g'. split; [lia|]. split; assumption.
Qed.

Lemma photoPositions_member (photos : list string) (g : Rng) (q : PhotoData) :
  In q (photoPositions (fst (generate CONFIG photos g))) ->
  exists (j : nat) (u : string) (g' : Rng),
    (j < List.length photos)%nat
    /\ draws g' = draws g
    /\ q = fst (photoPosition CONFIG (List.length photos) u j g').
Proof.
  unfold generate. intros Hin.
  destruct (ornaments CONFIG (PARTICLE_COUNT CONFIG) 0 g) as [ps g1] eqn:Eps.
  destruct (photoPositionsFrom CONFIG _ photos 0 g1) as [qs g2] eqn:Eqs.
  cbn [fst photoPositions] in Hin.
  assert (Hin' : In q (fst (photoPositionsFrom CONFIG (List.length photos)
                              photos 0 g1)))
    by (rewrite Eqs; exact Hin).
  destruct (photoPositions_member_range _ _ _ _ _ Hin')
    as (j & u & g' & Hj & Hd & Hq).
  exists j, u, g'. split; [lia|]. split; [| exact Hq].
  pose proof (ornaments_draws CONFIG (PARTICLE_COUNT CONFIG) 0 g) as H1.
  rewrite Eps in H1. simpl in H1. exact (eq_trans Hd H1).
Qed.

Lemma unitDraws_same (g g' : Rng) :
  draws g' = draws g -> unitDraws g -> unitDraws g'.
Proof. intros Hd Hg k. rewrite Hd. apply Hg. Qed.

(** Colour and size of one ornament. *)
Lemma ornament_gold_scale (i : nat) (g : Rng) :
  unitDraws g ->
  let p := fst (ornament CONFIG i g) in
  (type p = ring \/ type p = diamond -> color p = METALLIC_GOLD)
  /\ 0.08 <= scale p < 0.28.
Proof.
  intros Hg. unfold ornament, random; cbn [draws cursor].
  case_draws; simpl;
    (split;
     [ intros [H|H]; (reflexivity || discriminate H)
     | match goal with
       | |- context [draws g ?k * 0.2] => pose proof (Hg k)
       end; lra ]).
Qed.

(** The index of a loop iteration as a fraction of the count. *)
Lemma index_fraction (j n : nat) :
  (j < n)%nat -> 0 <= INR j / INR n < 1.
Proof.
  intros Hj.
  assert (Hn : 0 < INR n) by (apply lt_0_INR; lia).
  assert (Hj0 : 0 <= INR j) by apply pos_INR.
  assert (Hjn : INR j < INR n) by (apply lt_INR; exact Hj).
  split.
  - apply Rmult_le_pos; [exact Hj0 | left; apply Rinv_0_lt_compat; exact Hn].
  - apply Rmult_lt_reg_r with (INR n); [exact Hn|].
    unfold Rdiv. rewrite Rmult_assoc, Rinv_l by lra. lra.
Qed.

Lemma Math_pow_le_1 (b e : R) : 0 <= e -> b <= 1 -> Math_pow b e <= 1.
Proof.
  intros He Hb. unfold Math_pow.
  destruct (Rlt_dec 0 b) as [Hpos|_]; [| lra].
  unfold Rpower.
  assert (Hln : ln b <= 0).
  { destruct (Rle_lt_or_eq_dec b 1 Hb) as [Hlt|Heq].
    - left. rewrite <- ln_1. apply ln_increasing; assumption.
    - rewrite Heq, ln_1. lra. }
  assert (Harg : e * ln b <= 0) by nra.
  destruct (Rle_lt_or_eq_dec _ _ Harg) as [Hlt|Heq].
  - left. rewrite <- exp_0. apply exp_increasing. exact Hlt.
  - rewrite Heq, exp_0. lra.
Qed.

(** The normalized height of an ornament and of a photo. *)
Lemma normalizedY_ornament (H t : R) :
  0 < H -> (H * (t - 0.5) + H / 2) / H = t.
Proof.
  intros Hh. apply Rmult_eq_reg_r with H; [| lra].
  unfold Rdiv. rewrite Rmult_assoc, Rinv_l by lra. lra.
Qed.

Lemma normalizedY_photo (H t : R) :
  0 < H -> ((t - 0.5) * H * 0.7 + H / 2) / H = 0.7 * t + 0.15.
Proof.
  intros Hh. apply Rmult_eq_reg_r with H; [| lra].
  unfold Rdiv. rewrite Rmult_assoc, Rinv_l by lra. lra.
Qed.

(** The height of ornament [j] and the maximal radius there. *)
Lemma ornament_height (j : nat) (g : Rng) :
  wellFormed CONFIG ->
  (j < PARTICLE_COUNT CONFIG)%nat ->
  let y := height (positionTree (fst (ornament CONFIG j g))) in
  y = TREE_HEIGHT CONFIG * (INR j / INR (PARTICLE_COUNT CONFIG) - 0.5)
  /\ - (TREE_HEIGHT CONFIG / 2) <= y < TREE_HEIGHT CONFIG / 2
  /\ 0.2 <= maxRadiusAtY CONFIG y <= TREE_RADIUS_BOTTOM CONFIG + 0.2.
Proof.
  intros (Hn & Hh & Hrb & Hsr) Hj y.
  destruct (ornament_positions CONFIG j g) as [Htree _].
  cbv zeta in Htree. unfold y. rewrite Htree. cbn [height].
  pose proof (index_fraction j (PARTICLE_COUNT CONFIG) Hj) as Ht.
  set (t := INR j / INR (PARTICLE_COUNT CONFIG)) in *.
  split; [reflexivity|]. split; [nra|].
  split; [apply maxRadiusAtY_lower; exact Hrb|].
  unfold maxRadiusAtY.
  rewrite (normalizedY_ornament (TREE_HEIGHT CONFIG) t Hh).
  pose proof (Math_pow_le_1 (1 - t) 0.9) as Hp.
  pose proof (Math_pow_nonneg (1 - t) 0.9) as Hp0.
  assert (Hle : Math_pow (1 - t) 0.9 <= 1) by (apply Hp; lra).
  nra.
Qed.

End BoundsFacts.

(** X12: every generated ornament of type ring or diamond is
    METALLIC_GOLD, and every ornament's scale lies in [0.08, 0.28). *)
Theorem ornament_gold_and_scale :
  forall (cfg : Experience.Config) (photos : list string)
         (g : Experience.Rng) (p : Experience.ParticleData),
    Experience.unitDraws g ->
    In p (Experience.particles (fst (Experience.generate cfg photos g))) ->
    (Experience.type p = Experience.ring
     \/ Experience.type p = Experience.diamond ->
     Experience.color p = Experience.METALLIC_GOLD)
    /\ (0.08 <= Experience.scale p < 0.28)%R.
Proof.
  intros cfg photos g p Hg Hin.
  destruct (particles_member cfg photos g p Hin) as (j & g' & _ & Hd & ->).
  apply ornament_gold_scale. exact (unitDraws_same g g' Hd Hg).
Qed.

Lemma ornament_gold_and_scale_witness :
  let p := fst (Experience.ornament Experience.oneOrnament 0
                  Experience.surfaceDraws) in
  Experience.unitDraws Experience.surfaceDraws
  /\ In p (Experience.particles
             (fst (Experience.generate Experience.oneOrnament []
                     Experience.surfaceDraws)))
  /\ (0.08 <= Experience.scale p < 0.28)%R.
Proof.
  intros p.
  split; [exact surfaceDraws_unit|].
  split; [exact oneOrnament_generated|].
  exact (proj2 (ornament_gold_and_scale Experience.oneOrnament []
                  Experience.surfaceDraws p surfaceDraws_unit
                  oneOrnament_generated)).
Defined.

(** X13: in a generated layout the ornament with id i sits at height
    TREE_HEIGHT * (i / N - 0.5), inside [-H/2, H/2); the maximal radius
    there is at most TREE_RADIUS_BOTTOM + 0.2, so the tree fits in a
    cylinder of radius 1.15 * (TREE_RADIUS_BOTTOM + 0.2); and the star's
    target in TREE lies more than 1 above every ornament. *)
Theorem ornaments_within_cylinder :
  forall (cfg : Experience.Config) (photos : list string)
         (g : Experience.Rng) (p : Experience.ParticleData),
    Experience.wellFormed cfg ->
    Experience.unitDraws g ->
    In p (Experience.particles (fst (Experience.generate cfg photos g))) ->
    let y := Experience.height (Experience.positionTree p) in
    let H := Experience.TREE_HEIGHT cfg in
    (y = H * (INR (Experience.id p) / INR (Experience.PARTICLE_COUNT cfg)
              - 0.5))%R
    /\ (- (H / 2) <= y < H / 2)%R
    /\ (Experience.horizontalRadius (Experience.positionTree p)
        <= 1.15 * (Experience.TREE_RADIUS_BOTTOM cfg + 0.2))%R
    /\ (y + 1 < Experience.height (Experience.starTarget cfg TREE))%R.
Proof.
  intros cfg photos g p Hwf Hg Hin y H.
  destruct (particles_member cfg photos g p Hin) as (j & g' & Hj & Hd & ->).
  destruct (ornament_height cfg j g' Hwf Hj) as (Hy & Hrange & Hmax).
  assert (Hrad := ornament_bounds cfg j g'
                    (proj1 (proj2 (proj2 Hwf))) (proj2 (proj2 (proj2 Hwf)))
                    (unitDraws_same g g' Hd Hg)).
  cbv zeta in Hy, Hrange, Hmax, Hrad. destruct Hrad as [_ Hrad].
  unfold y, H.
  rewrite ornament_id.
  split; [exact Hy|]. split; [exact Hrange|]. split.
  - lra.
  - unfold Experience.starTarget. cbn [Experience.height]. lra.
Qed.

Lemma ornaments_within_cylinder_witness :
  let p := fst (Experience.ornament Experience.oneOrnament 0
                  Experience.surfaceDraws) in
  Experience.wellFormed Experience.oneOrnament
  /\ Experience.unitDraws Experience.surfaceDraws
  /\ In p (Experience.particles
             (fst (Experience.generate Experience.oneOrnament []
                     Experience.surfaceDraws)))
  /\ (Experience.horizontalRadius (Experience.positionTree p)
      <= 1.15 * (5 + 0.2))%R.
Proof.
  intros p.
  split; [exact oneOrnament_wellFormed|].
  split; [exact surfaceDraws_unit|].
  split; [exact oneOrnament_generated|].
  exact (proj1 (proj2 (proj2
           (ornaments_within_cylinder Experience.oneOrnament []
              Experience.surfaceDraws p oneOrnament_wellFormed
              surfaceDraws_unit oneOrnament_generated)))).
Defined.

Section PlacementFacts.

Local Open Scope R_scope.

Import Experience.

Variable CONFIG : Config.

Ltac case_draws :=
  repeat match goal with
         | |- context [gtb ?a ?b] => destruct (gtb a b)
         end.


End PlacementFacts.



Section PhotoFacts.

Local Open Scope R_scope.

Import Experience.

Variable CONFIG : Config.

(** The placement of one photo. *)
Lemma photoPosition_bounds (n : nat) (u : string) (j : nat) (g : Rng) :
  wellFormed CONFIG ->
  unitDraws g ->
  (j < n)%nat ->
  let q := fst (photoPosition CONFIG n u j g) in
  let H := TREE_HEIGHT CONFIG in
  let B := TREE_RADIUS_BOTTOM CONFIG + 1.2 in
  (exists sx sy sz,
      photoPositionScatter q = (sx, sy, sz)
      /\ -8 <= sx < 8 /\ -6 <= sy < 6 /\ -4 <= sz < 4)
  /\ (exists ry, rotation q = (0, ry, 0) /\ 0 <= ry < 0.5)
  /\ aspectRatio q = 1
  /\ -0.35 * H <= height (photoPositionTree q) < 0.35 * H
  /\ 0.15 * B + 0.5 < horizontalRadius (photoPositionTree q) <= 0.85 * B + 0.5.
Proof.
  intros (Hn & Hh & Hrb & Hsr) Hg Hj q H B.
  unfold q, photoPosition, random; cbn [draws cursor fst].
  cbn [photoPositionScatter rotation aspectRatio photoPositionTree height].
  pose proof (index_fraction j n Hj) as Ht.
  set (t := INR j / INR n) in *.
  split.
  { eexists. eexists. eexists. split; [reflexivity|].
    pose proof (Hg (cursor g)). pose proof (Hg (S (cursor g))).
    pose proof (Hg (S (S (cursor g)))). lra. }
  split.
  { eexists. split; [reflexivity|].
    pose proof (Hg (S (S (S (cursor g))))). lra. }
  split; [reflexivity|].
  split; [unfold H; nra|].
  rewrite (normalizedY_photo (TREE_HEIGHT CONFIG) t Hh).
  rewrite horizontalRadius_polar by (unfold B; nra).
  unfold B. nra.
Qed.

End PhotoFacts.

(** X15: every generated photo position has its scatter position in the
    box [-8, 8) x [-6, 6) x [-4, 4), a rotation about the vertical axis in
    [0, 0.5), aspect ratio 1, a tree height within 0.35 * TREE_HEIGHT of
    the centre, and a tree radius between 0.15 and 0.85 times
    (TREE_RADIUS_BOTTOM + 1.2), plus 0.5. *)
Theorem photo_layout_bounds :
  forall (cfg : Experience.Config) (photos : list string)
         (g : Experience.Rng) (q : Experience.PhotoData),
    Experience.wellFormed cfg ->
    Experience.unitDraws g ->
    In q (Experience.photoPositions (fst (Experience.generate cfg photos g))) ->
    let H := Experience.TREE_HEIGHT cfg in
    let B := (Experience.TREE_RADIUS_BOTTOM cfg + 1.2)%R in
    (exists sx sy sz : R,
        Experience.photoPositionScatter q = (sx, sy, sz)
        /\ (-8 <= sx < 8)%R /\ (-6 <= sy < 6)%R /\ (-4 <= sz < 4)%R)
    /\ (exists ry : R,
           Experience.rotation q = (0%R, ry, 0%R) /\ (0 <= ry < 0.5)%R)
    /\ Experience.aspectRatio q = 1%R
    /\ (-0.35 * H <= Experience.height (Experience.photoPositionTree q)
        < 0.35 * H)%R
    /\ (0.15 * B + 0.5
        < Experience.horizontalRadius (Experience.photoPositionTree q)
        <= 0.85 * B + 0.5)%R.
Proof.
  intros cfg photos g q Hwf Hg Hin H B.
  destruct (photoPositions_member cfg photos g q Hin)
    as (j & u & g' & Hj & Hd & ->).
  apply photoPosition_bounds; try assumption.
  exact (unitDraws_same g g' Hd Hg).
Qed.

Lemma photoPositions_nonempty (cfg : Experience.Config) (u : string)
  (rest : list string) (g : Experience.Rng) :
  exists q : Experience.PhotoData,
    In q (Experience.photoPositions
            (fst (Experience.generate cfg (u :: rest) g))).
Proof.
  destruct (generate_structure cfg (u :: rest) g) as (_ & Hu & _).
  cbv zeta in Hu.
  destruct (Experience.photoPositions
              (fst (Experience.generate cfg (u :: rest) g))) as [|q qs].
  - discriminate Hu.
  - exists q. left. reflexivity.
Qed.

Lemma photo_layout_bounds_witness :
  Experience.wellFormed Experience.oneOrnament
  /\ Experience.unitDraws Experience.surfaceDraws
  /\ exists q : Experience.PhotoData,
       In q (Experience.photoPositions
               (fst (Experience.generate Experience.oneOrnament
                       ["blob:a"%string] Experience.surfaceDraws)))
       /\ Experience.aspectRatio q = 1%R.
Proof.
  split; [exact oneOrnament_wellFormed|].
  split; [exact surfaceDraws_unit|].
  destruct (photoPositions_nonempty Experience.oneOrnament "blob:a"%string
              [] Experience.surfaceDraws) as [q Hq].
  exists q. split; [exact Hq|].
  exact (proj1 (proj2 (proj2
           (photo_layout_bounds Experience.oneOrnament ["blob:a"%string]
              Experience.surfaceDraws q oneOrnament_wellFormed
              surfaceDraws_unit Hq)))).
Defined.

(** X16: the targets of a generated photo.  Outside FOCUS the target is
    the tree or scatter position at scale 1, whether or not the photo is
    the focused one.  In FOCUS the focused photo goes to (0, 0, 5) at
    scale 3.5, 3 in front of the camera's target position; every other
    photo keeps scale 1 and recedes to a depth below -6, more than 14
    behind the camera target. *)
Theorem photo_targets :
  forall (cfg : Experience.Config) (photos : list string)
         (g : Experience.Rng) (q : Experience.PhotoData) (focused : bool),
    Experience.unitDraws g ->
    In q (Experience.photoPositions (fst (Experience.generate cfg photos g))) ->
    Experience.photoTarget TREE focused q
    = (Experience.photoPositionTree q, 1%R)
    /\ Experience.photoTarget SCATTER focused q
       = (Experience.photoPositionScatter q, 1%R)
    /\ Experience.photoTarget FOCUS true q = ((0, 0, 5), 3.5)%R
    /\ Experience.cameraPositionTarget FOCUS = Some (0, 0, 5 + 3)%R
    /\ snd (Experience.photoTarget FOCUS false q) = 1%R
    /\ (-14 <= Experience.zOf (fst (Experience.photoTarget FOCUS false q))
        < -6)%R.
Proof.
  intros cfg photos g q focused Hg Hin.
  destruct (photoPositions_member cfg photos g q Hin)
    as (j & u & g' & Hj & Hd & ->).
  pose proof (unitDraws_same g g' Hd Hg (S (S (Experience.cursor g')))) as Hz.
  unfold Experience.photoTarget, Experience.photoPosition, Experience.random.
  cbn [Experience.draws Experience.cursor fst snd
       Experience.photoPositionScatter Experience.photoPositionTree
       Experience.zOf].
  split; [reflexivity|]. split; [reflexivity|]. split; [reflexivity|].
  split; [unfold Experience.cameraPositionTarget; do 3 f_equal; lra|].
  split; [reflexivity|]. lra.
Qed.

Lemma photo_targets_witness :
  Experience.unitDraws Experience.surfaceDraws
  /\ exists q : Experience.PhotoData,
       In q (Experience.photoPositions
               (fst (Experience.generate Experience.oneOrnament
                       ["blob:a"%string] Experience.surfaceDraws)))
       /\ (Experience.zOf (fst (Experience.photoTarget FOCUS false q))
           < -6)%R.
Proof.
  split; [exact surfaceDraws_unit|].
  destruct (photoPositions_nonempty Experience.oneOrnament "blob:a"%string
              [] Experience.surfaceDraws) as [q Hq].
  exists q. split; [exact Hq|].
  exact (proj2 (proj2 (proj2 (proj2 (proj2 (proj2
           (photo_targets Experience.oneOrnament ["blob:a"%string]
              Experience.surfaceDraws q false surfaceDraws_unit Hq))))))).
Defined.

(** * The running application *)

Lemma render_app (cfg : Experience.Config) (w : Experience.World) :
  Experience.app (Experience.render cfg w) = Experience.app w.
Proof.
  unfold Experience.render.
  destruct (Experience.generate cfg _ _) as [layout g].
  destruct (Experience.memo w) as [m|]; [| reflexivity].
  destruct (Nat.eqb _ _); reflexivity.
Qed.

(** A handler keeps the [photos] array or stores a freshly allocated one. *)
Lemma step_photos_cases (e : App.event) (a : App.State) :
  (App.photos (App.step e a) = App.photos a
   /\ App.nextIdent (App.step e a) = App.nextIdent a)
  \/ (App.ident (App.photos (App.step e a)) = App.nextIdent a
      /\ App.nextIdent (App.step e a) = S (App.nextIdent a)).
Proof.
  destruct e as [g hx hy | [url|] |]; simpl.
  - left. destruct (handleGestureDetected_fields g hx hy a)
      as (_ & _ & _ & _ & Hph & Hni).
    split; assumption.
  - right. split; reflexivity.
  - left. split; reflexivity.
  - destruct (App.isFocusMode a); [| left; split; reflexivity].
    unfold App.handleRemovePhoto.
    destruct (App.focusedPhotoIndex a) as [idx|];
      [| left; split; reflexivity].
    destruct (js_get _ idx); [right | left]; split; reflexivity.
Qed.

Lemma mounted_invariant (cfg : Experience.Config) (g : Experience.Rng) :
  Experience.unitDraws g ->
  Experience.worldInvariant cfg (Experience.mounted cfg g).
Proof.
  intros Hg. unfold Experience.mounted, Experience.render.
  cbn [Experience.app Experience.memo Experience.rng].
  pose proof (generate_draws cfg (App.urls (App.photos App.initial)) g) as Hd.
  destruct (Experience.generate cfg (App.urls (App.photos App.initial)) g)
    as [layout g1] eqn:Egen.
  unfold Experience.worldInvariant.
  cbn [Experience.app Experience.memo Experience.rng].
  split; [apply reachable_initial|].
  split; [exact (unitDraws_same g g1 Hd Hg)|].
  split; [simpl; lia|].
  eexists. exists g. split; [reflexivity|].
  split; [reflexivity|]. split; [exact Hg|].
  cbn [Experience.value]. rewrite Egen. reflexivity.
Qed.

Lemma dispatch_invariant (cfg : Experience.Config) (e : App.event)
  (w : Experience.World) :
  Experience.worldInvariant cfg w ->
  Experience.worldInvariant cfg (Experience.dispatch cfg e w).
Proof.
  intros (Hreach & Hrng & Hlt & m & g0 & Hm & Hdeps & Hg0 & Hval).
  unfold Experience.dispatch, Experience.render.
  cbn [Experience.app Experience.memo Experience.rng].
  rewrite Hm.
  set (a := Experience.app w) in *.
  pose proof (generate_draws cfg (App.urls (App.photos (App.step e a)))
                (Experience.rng w)) as Hd.
  destruct (Experience.generate cfg (App.urls (App.photos (App.step e a)))
              (Experience.rng w)) as [layout g1] eqn:Egen.
  destruct (step_photos_cases e a) as [[Hph Hni] | [Hid Hni]].
  - rewrite Hph, Hdeps, Nat.eqb_refl.
    unfold Experience.worldInvariant.
    cbn [Experience.app Experience.memo Experience.rng].
    split; [apply reachable_step; exact Hreach|].
    split; [exact Hrng|].
    split; [rewrite Hph, Hni; exact Hlt|].
    exists m, g0. rewrite Hph.
    split; [reflexivity|]. split; [exact Hdeps|].
    split; [exact Hg0 | exact Hval].
  - assert (Hne : Nat.eqb (Experience.deps m)
                    (App.ident (App.photos (App.step e a))) = false)
      by (apply Nat.eqb_neq; lia).
    rewrite Hne.
    unfold Experience.worldInvariant.
    cbn [Experience.app Experience.memo Experience.rng].
    split; [apply reachable_step; exact Hreach|].
    split; [exact (unitDraws_same _ g1 Hd Hrng)|].
    split; [lia|].
    eexists. exists (Experience.rng w). split; [reflexivity|].
    split; [reflexivity|]. split; [exact Hrng|].
    cbn [Experience.value]. rewrite Egen. reflexivity.
Qed.

Lemma reachableWorld_invariant (cfg : Experience.Config)
  (w : Experience.World) :
  Experience.reachableWorld cfg w -> Experience.worldInvariant cfg w.
Proof.
  intros (g & es & Hg & ->).
  induction es as [|e es IH] using rev_ind.
  - apply mounted_invariant. exact Hg.
  - unfold Experience.runWorld. rewrite fold_left_app. simpl.
    apply dispatch_invariant. exact IH.
Qed.

(** X17: at every point of a run (first render, then any sequence of
    gestures, uploads and remove clicks, each followed by a render) the
    memoised layout is the one generated for the current photo
    collection: it has one photo position per photo, in order and with
    the photo's url, and PARTICLE_COUNT ornaments; the memo never goes
    stale. *)
Theorem layout_tracks_photos :
  forall (cfg : Experience.Config) (w : Experience.World),
    Experience.reachableWorld cfg w ->
    exists m : Experience.Memo,
      Experience.memo w = Some m
      /\ map Experience.url (Experience.photoPositions (Experience.value m))
         = App.urls (App.photos (Experience.app w))
      /\ map Experience.id (Experience.particles (Experience.value m))
         = seq 0 (Experience.PARTICLE_COUNT cfg)
      /\ exists g0 : Experience.Rng,
           Experience.unitDraws g0
           /\ Experience.value m
              = fst (Experience.generate cfg
                       (App.urls (App.photos (Experience.app w))) g0).
Proof.
  intros cfg w Hreach.
  destruct (reachableWorld_invariant cfg w Hreach)
    as (_ & _ & _ & m & g0 & Hm & _ & Hg0 & Hval).
  exists m. split; [exact Hm|].
  destruct (generate_structure cfg
              (App.urls (App.photos (Experience.app w))) g0)
    as (Hids & Hurls & _).
  cbv zeta in Hids, Hurls. rewrite Hval.
  split; [exact Hurls|]. split; [exact Hids|].
  exists g0. split; [exact Hg0 | reflexivity].
Qed.

Lemma layout_tracks_photos_witness :
  let w := Experience.runWorld Experience.oneOrnament
             [App.Upload (Some "blob:a"%string); App.Gesture OPEN 0 0]
             (Experience.mounted Experience.oneOrnament
                Experience.surfaceDraws) in
  Experience.reachableWorld Experience.oneOrnament w
  /\ exists m : Experience.Memo,
       Experience.memo w = Some m
       /\ map Experience.url (Experience.photoPositions (Experience.value m))
          = App.urls (App.photos (Experience.app w)).
Proof.
  intros w.
  assert (H : Experience.reachableWorld Experience.oneOrnament w).
  { exists Experience.surfaceDraws.
    exists [App.Upload (Some "blob:a"%string); App.Gesture OPEN 0 0].
    split; [exact surfaceDraws_unit | reflexivity]. }
  split; [exact H|].
  destruct (layout_tracks_photos Experience.oneOrnament w H)
    as (m & Hm & Hurls & _).
  exists m. split; [exact Hm | exact Hurls].
Defined.

(** X18: in a reachable state whose display state is FOCUS, the photo
    mesh at index i is the focused one exactly when i = 0; in SCATTER no
    mesh is focused. *)
Theorem focused_mesh_is_first :
  forall (s : App.State) (i : nat),
    App.reachable s ->
    Experience.isFocused (App.focusedPhotoIndex s) i
    = match App.appState s with
      | FOCUS => Nat.eqb i 0
      | SCATTER => false
      | TREE => match App.focusedPhotoIndex s with
                | Some _ => Nat.eqb i 0
                | None => false
                end
      end.
Proof.
  intros s i Hreach.
  pose proof (reachable_focus_invariant s Hreach) as Hinv.
  unfold App.focus_invariant in Hinv. unfold Experience.isFocused.
  assert (Hz : jsindex_eqb (Int 0) (App.index i) = Nat.eqb i 0)
    by (destruct i; reflexivity).
  destruct (App.appState s).
  - destruct Hinv as [-> | ->]; [reflexivity | exact Hz].
  - rewrite Hinv. reflexivity.
  - rewrite Hinv. exact Hz.
Qed.

Lemma focused_mesh_is_first_witness :
  let s := App.run [App.Gesture OPEN 0 0; App.Gesture PINCH 0 0] App.initial in
  App.reachable s
  /\ Experience.isFocused (App.focusedPhotoIndex s) 0 = true
  /\ Experience.isFocused (App.focusedPhotoIndex s) 2 = false.
Proof.
  intros s.
  assert (H : App.reachable s)
    by (exists [App.Gesture OPEN 0 0; App.Gesture PINCH 0 0]; reflexivity).
  split; [exact H|].
  rewrite (focused_mesh_is_first s 0 H), (focused_mesh_is_first s 2 H).
  split; reflexivity.
Defined.

(** * The earlier revision of the ornament loop *)

Section EarlierFacts.

Local Open Scope R_scope.

Import Experience.

Variable CONFIG : Config.

Ltac case_draws :=
  repeat match goal with
         | |- context [gtb ?a ?b] => destruct (gtb a b)
         end.



End EarlierFacts.


